(** * Ticket analytics handler ([GET /api/analyze]): a shallow embedding

    The handler of the route [/api/analyze] fetches the array [data.results]
    of service-desk issues and answers [404], one JSON report, or [500] when
    the analysis throws.
    This file embeds the handler, from the array on, as a Rocq function and
    states the properties of the report as theorems.

    Modelling conventions.
    - A JavaScript [Number] is abstracted by the class [JsNumber]; the
      handler is written once, generically.  Two instances are given:
      [Double] (IEEE-754 binary64, the arithmetic the handler runs on) and
      [Exact] (rationals extended with [NaN], the arithmetic of the formulas
      read as mathematics).
    - The counters that are local variables are incremented one at a time
      from [0] and are modelled by [nat]; time values (milliseconds since the
      epoch) are integers, modelled by [Z]; an [Invalid Date] has no time
      value ([None], JavaScript's [NaN]).
      A duration and the running total of the durations are integers as
      well, converted to a [Number] when they are divided: this is the double
      arithmetic of the handler as long as the integers stay within [2^53] in
      magnitude, which the theorems about durations assume ([safe_duration],
      [safe_total]).
    - The strings [created], [updated] and [due] of an issue are only ever
      passed to [new Date]; the embedding keeps the resulting [Date].
    - A JavaScript object used as a dictionary is the list of its own
      properties in creation order; [Object_keys] applies the enumeration
      order of the language (array-index keys first, ascending, then the other
      keys in creation order).  A read [o[k]] finds an own property or a
      member of [Object.prototype] ([constructor], [__proto__], [toString],
      ...): see [js_get], [js_set] and [increment].
    - A string is a sequence of ASCII characters: [toLowerCase] folds the
      letters [A] to [Z] and [trim] removes the ASCII white space.  Text
      with other characters is outside the embedding; the theorems that
      depend on folding or trimming arbitrary text say so ([ascii_only]). *)

From Stdlib Require Import ZArith NArith QArith Qabs Qround Floats.
From Stdlib Require Import List Sorted String Ascii Bool Lia Lqa.
From Stdlib Require Import Permutation.
Import ListNotations.

Set Implicit Arguments.

#[local] Close Scope Q_scope.
#[local] Open Scope string_scope.
#[local] Open Scope nat_scope.
#[local] Open Scope list_scope.

(** ** Strings *)

Definition lower_ascii (c : ascii) : ascii :=
  let n := nat_of_ascii c in
  if andb (65 <=? n)%nat (n <=? 90)%nat then ascii_of_nat (n + 32) else c.

Fixpoint toLowerCase (s : string) : string :=
  match s with
  | EmptyString => EmptyString
  | String c s' => String (lower_ascii c) (toLowerCase s')
  end.

(** Truthiness of a possibly undefined string: [undefined] and the empty
    string are falsy. *)
Definition truthy (v : option string) : bool :=
  match v with
  | Some s => negb (String.eqb s EmptyString)
  | None => false
  end.

(** [v || d] on a possibly undefined string. *)
Definition or_else (v : option string) (d : string) : string :=
  match v with
  | Some s => if String.eqb s EmptyString then d else s
  | None => d
  end.

(** ** Numbers *)

Class JsNumber (N : Type) : Type := {
  of_int : Z -> N;
  NaN : N;
  isNaN : N -> bool;
  num_add : N -> N -> N;
  num_mul : N -> N -> N;
  num_div : N -> N -> N;
  Math_round : N -> N
}.

Module Exact.

(** Rationals with [NaN]; every result is kept in lowest terms.  A division
    by zero, which the handler guards against, is given the value [NaN]. *)
Definition num : Type := option Q.

Definition lift2 (f : Q -> Q -> Q) (a b : num) : num :=
  match a, b with
  | Some x, Some y => Some (Qred (f x y))
  | _, _ => None
  end.

Definition div (a b : num) : num :=
  match a, b with
  | Some x, Some y => if Qeq_bool y 0 then None else Some (Qred (x / y))
  | _, _ => None
  end.

(** [Math.round]: the nearest integer, a tie going towards +infinity. *)
Definition round (a : num) : num :=
  match a with
  | Some x => Some (inject_Z (Qfloor (x + (1 # 2))))
  | None => None
  end.

Definition is_nan (a : num) : bool :=
  match a with Some _ => false | None => true end.

End Exact.

#[export] Instance Exact_JsNumber : JsNumber Exact.num := {|
  of_int := fun z => Some (inject_Z z);
  NaN := None;
  isNaN := Exact.is_nan;
  num_add := Exact.lift2 Qplus;
  num_mul := Exact.lift2 Qmult;
  num_div := Exact.div;
  Math_round := Exact.round
|}.

Module Double.

(** The double nearest to an integer (round to nearest, ties to even). *)
Definition of_Z (z : Z) : float :=
  SF2Prim (binary_normalize prec emax z 0 false).

(** [Math.round] on a double.  A finite double is [(-1)^s * m * 2^e]; when
    [0 <= e] it is an integer already, otherwise
    [floor (x + 1/2) = (2 * (+-m) + 2^(-e)) / 2^(1 - e)], of magnitude at
    most [2^52], hence exactly representable.  A result [0] from a negative
    argument is [-0]. *)
Definition round (x : float) : float :=
  match Prim2SF x with
  | S754_finite s m e =>
      if (0 <=? e)%Z then x
      else
        let n := if s then Z.neg m else Z.pos m in
        let k := ((2 * n + 2 ^ (- e)) / 2 ^ (1 - e))%Z in
        if (k =? 0)%Z then (if s then PrimFloat.neg_zero else PrimFloat.zero)
        else of_Z k
  | _ => x
  end.

End Double.

#[export] Instance Double_JsNumber : JsNumber float := {|
  of_int := Double.of_Z;
  NaN := nan;
  isNaN := PrimFloat.is_nan;
  num_add := PrimFloat.add;
  num_mul := PrimFloat.mul;
  num_div := PrimFloat.div;
  Math_round := Double.round
|}.

(** A quantity in milliseconds, [None] standing for [NaN]. *)
Definition of_ms {N} `{JsNumber N} (t : option Z) : N :=
  match t with
  | Some z => of_int z
  | None => NaN
  end.

(** Comparisons of time values; a comparison with [NaN] is false. *)
Definition time_le (a b : option Z) : bool :=
  match a, b with
  | Some x, Some y => (x <=? y)%Z
  | _, _ => false
  end.

Definition time_gt (a b : option Z) : bool :=
  match a, b with
  | Some x, Some y => (y <? x)%Z
  | _, _ => false
  end.

Definition time_sub (a b : option Z) : option Z :=
  match a, b with
  | Some x, Some y => Some (x - y)%Z
  | _, _ => None
  end.

Definition time_add (a b : option Z) : option Z :=
  match a, b with
  | Some x, Some y => Some (x + y)%Z
  | _, _ => None
  end.

(** ** Dates *)

(** The value of [new Date(s)]: its time value, absent for [Invalid Date]. *)
Record Date : Type := { getTime : option Z }.

Definition valid_date (t : Z) : Date := {| getTime := Some t |}.
Definition invalid_date : Date := {| getTime := None |}.

(** ** Objects used as dictionaries *)

Definition JsObject (V : Type) : Type := list (string * V).

Fixpoint obj_get {V} (o : JsObject V) (k : string) : option V :=
  match o with
  | [] => None
  | (k', v) :: o' => if String.eqb k k' then Some v else obj_get o' k
  end.

(** [o[k] = v]: an existing property keeps its place, a new one is created
    last. *)
Fixpoint obj_set {V} (o : JsObject V) (k : string) (v : V) : JsObject V :=
  match o with
  | [] => [(k, v)]
  | (k', v') :: o' =>
      if String.eqb k k' then (k', v) :: o' else (k', v') :: obj_set o' k v
  end.

(** The members that an object literal inherits from [Object.prototype]:
    eleven functions, each listed with the name under which it prints, and
    the accessor [__proto__]. *)
Definition Object_prototype : JsObject string :=
  [ ("constructor", "Object");
    ("__defineGetter__", "__defineGetter__");
    ("__defineSetter__", "__defineSetter__");
    ("hasOwnProperty", "hasOwnProperty");
    ("__lookupGetter__", "__lookupGetter__");
    ("__lookupSetter__", "__lookupSetter__");
    ("isPrototypeOf", "isPrototypeOf");
    ("propertyIsEnumerable", "propertyIsEnumerable");
    ("toString", "toString");
    ("valueOf", "valueOf");
    ("toLocaleString", "toLocaleString") ].

(** What [o[k]] finds: an own property, the function [f] of
    [Object.prototype], [Object.prototype] itself (through the accessor
    [__proto__]), or nothing. *)
Inductive Property (V : Type) : Type :=
| Own (v : V)
| Inherited (f : string)
| Prototype
| Undefined.

Arguments Own {V} v.
Arguments Inherited {V} f.
Arguments Prototype {V}.
Arguments Undefined {V}.

(** [o[k]], read. *)
Definition js_get {V} (o : JsObject V) (k : string) : Property V :=
  match obj_get o k with
  | Some v => Own v
  | None =>
      if String.eqb k "__proto__" then Prototype
      else
        match obj_get Object_prototype k with
        | Some f => Inherited f
        | None => Undefined
        end
  end.

(** [o[k] = v] for a number or a string [v].  A key that names an inherited
    function gets an own property, which shadows the function; under
    [__proto__] the value goes to the inherited setter, which ignores
    whatever is not an object. *)
Definition js_set {V} (o : JsObject V) (k : string) (v : V) : JsObject V :=
  match js_get o k with
  | Prototype => o
  | _ => obj_set o k v
  end.

(** The values that [o[k] = (o[k] || 0) + 1] stores: a number or, under a key
    that names a function of [Object.prototype], the text of that function
    followed by one character [1] for each addition. *)
Inductive Counter : Type :=
| Count (n : nat)
| Text (f : string) (added : nat).

(** The text of a built-in function, as V8 prints it. *)
Definition native_source (f : string) : string :=
  "function " ++ f ++ "() { [native code] }".

Fixpoint ones (n : nat) : string :=
  match n with
  | 0 => EmptyString
  | S n' => String "1" (ones n')
  end.

Definition text_of (f : string) (added : nat) : string :=
  native_source f ++ ones added.

(** [o[k] = (o[k] || 0) + 1].  An inherited function is truthy and [+]
    concatenates its text with [1]; [Object.prototype + 1] is the string
    ["[object Object]1"], which the setter of [__proto__] ignores. *)
Definition increment (o : JsObject Counter) (k : string) : JsObject Counter :=
  match js_get o k with
  | Own (Count n) => obj_set o k (Count (n + 1))
  | Own (Text f added) => obj_set o k (Text f (added + 1))
  | Inherited f => obj_set o k (Text f 1)
  | Prototype => o
  | Undefined => obj_set o k (Count 1)
  end.

(** What an operand of [>] is converted to. *)
Inductive Primitive : Type :=
| Num (n : nat)
| Str (s : string)
| Undef.

Definition to_primitive (p : Property Counter) : Primitive :=
  match p with
  | Own (Count n) => Num n
  | Own (Text f added) => Str (text_of f added)
  | Inherited f => Str (native_source f)
  | Prototype => Str "[object Object]"
  | Undefined => Undef
  end.

(** [a > b].  Two strings are compared as strings, code unit by code unit;
    otherwise both sides are converted to numbers, and neither [undefined]
    nor any of the strings above reads as a number: the comparison is
    false. *)
Definition greater (a b : Property Counter) : bool :=
  match to_primitive a, to_primitive b with
  | Num x, Num y => y <? x
  | Str s, Str t => String.ltb t s
  | _, _ => false
  end.

Definition digit_of (c : ascii) : option N :=
  let n := N_of_ascii c in
  if andb (48 <=? n)%N (n <=? 57)%N then Some (n - 48)%N else None.

Fixpoint digits_value (s : string) (acc : N) : option N :=
  match s with
  | EmptyString => Some acc
  | String c s' =>
      match digit_of c with
      | Some d => digits_value s' (10 * acc + d)%N
      | None => None
      end
  end.

(** A key is an array index when it is the canonical decimal spelling of an
    integer below [2^32 - 1]. *)
Definition array_index (k : string) : option N :=
  match k with
  | EmptyString => None
  | String c rest =>
      if andb (Ascii.eqb c "0"%char) (negb (String.eqb rest EmptyString))
      then None
      else
        match digits_value k 0%N with
        | Some n => if (n <? 4294967295)%N then Some n else None
        | None => None
        end
  end.

Fixpoint insert_index (n : N) (k : string) (l : list (N * string))
  : list (N * string) :=
  match l with
  | [] => [(n, k)]
  | (m, k') :: l' =>
      if (n <=? m)%N then (n, k) :: l else (m, k') :: insert_index n k l'
  end.

Fixpoint index_keys (ks : list string) : list (N * string) :=
  match ks with
  | [] => []
  | k :: ks' =>
      match array_index k with
      | Some n => insert_index n k (index_keys ks')
      | None => index_keys ks'
      end
  end.

Definition is_named (k : string) : bool :=
  match array_index k with Some _ => false | None => true end.

(** The enumeration order of own string keys: array indices in ascending
    numeric order, then the other keys in creation order. *)
Definition own_keys_order (ks : list string) : list string :=
  map snd (index_keys ks) ++ filter is_named ks.

Definition Object_keys {V} (o : JsObject V) : list string :=
  own_keys_order (map fst o).

(** [a.reduce(f)] without an initial value; [None] is the [TypeError] thrown
    on an empty array. *)
Definition reduce1 {A} (f : A -> A -> A) (a : list A) : option A :=
  match a with
  | [] => None
  | x :: a' => Some (fold_left f a' x)
  end.

(** ** The data of the API *)

Record SatisfactionRating : Type := { score : string }.

(** An element of [SampleData.results]; the fields the handler does not read
    ([assignee_id], [subject], [organization_id], [via], [ticket_form_id])
    are left out. *)
Record Issue : Type := {
  id : Z;
  created : Date;
  updated : Date;
  due : Date;
  status : string;
  type : string;
  priority : string;
  satisfaction_rating : option SatisfactionRating
}.

(** [issue.satisfaction_rating?.score] *)
Definition rating_score (issue : Issue) : option string :=
  option_map score (satisfaction_rating issue).

(** ** The report *)

Record StatusBreakdown (N : Type) : Type := {
  open : nat; closed : nat; pending : nat; hold : nat; solved : nat; new : nat;
  openPercent : N; closedPercent : N; pendingPercent : N;
  holdPercent : N; solvedPercent : N; newPercent : N
}.

Record PriorityBreakdown (N : Type) : Type := {
  high : nat; normal : nat; low : nat;
  highPercent : N; normalPercent : N; lowPercent : N
}.

Record ResolutionTimeliness (N : Type) : Type := {
  onTime : nat; overdue : nat; currentlyOverdue : nat;
  onTimePercent : N; overduePercent : N; currentlyOverduePercent : N
}.

Record HighPriorityAnalysis (N : Type) : Type := {
  averageTimeToCloseHours : N;
  averageTimeToCloseDays : N;
  totalClosedHighPriority : nat
}.

Record LongestToSolveHighPriority (N : Type) : Type := {
  issueId : Z;
  timeToSolveHours : N;
  timeToSolveDays : N;
  satisfactionRatingScore : string
}.

Record AdditionalInsights : Type := {
  totalIssues : nat;
  issuesByType : JsObject Counter;
  averageSatisfactionByPriority : JsObject string;
  issuesClosedCount : nat;
  issuesOpenCount : nat
}.

Record AnalysisResult (N : Type) : Type := {
  statusBreakdown : StatusBreakdown N;
  priorityBreakdown : PriorityBreakdown N;
  resolutionTimeliness : ResolutionTimeliness N;
  highPriorityAnalysis : HighPriorityAnalysis N;
  longestToSolveHighPriority : LongestToSolveHighPriority N;
  additionalInsights : AdditionalInsights
}.

(** What the handler sends.  The answer 500 carries, besides [error], the
    message of the exception, a text of the engine that is left out. *)
Inductive Response (N : Type) : Type :=
| Status404 (error : string)
| Status500 (error : string)
| Json (result : AnalysisResult N).

Arguments Status404 {N} error.
Arguments Status500 {N} error.
Arguments Json {N} result.

(** ** The handler *)

Module analyze.

Record StatusCounts : Type := {
  open : nat; closed : nat; pending : nat; hold : nat; solved : nat; new : nat
}.

Record PriorityCounts : Type := { high : nat; normal : nat; low : nat }.

(** The element type of [timeToCloseArray]. *)
Record Entry : Type := { issue : Issue; timeMs : option Z }.

(** The element type of [satisfactionByPriority]. *)
Record Scores : Type := { scores : list string }.

(** *** 1. Status breakdown *)

Definition count_status (c : StatusCounts) (issue : Issue) : StatusCounts :=
  let status := toLowerCase (status issue) in
  if String.eqb status "open" then
    Build_StatusCounts (S (open c)) (closed c) (pending c) (hold c) (solved c) (new c)
  else if String.eqb status "closed" then
    Build_StatusCounts (open c) (S (closed c)) (pending c) (hold c) (solved c) (new c)
  else if String.eqb status "pending" then
    Build_StatusCounts (open c) (closed c) (S (pending c)) (hold c) (solved c) (new c)
  else if String.eqb status "hold" then
    Build_StatusCounts (open c) (closed c) (pending c) (S (hold c)) (solved c) (new c)
  else if String.eqb status "solved" then
    Build_StatusCounts (open c) (closed c) (pending c) (hold c) (S (solved c)) (new c)
  else if String.eqb status "new" then
    Build_StatusCounts (open c) (closed c) (pending c) (hold c) (solved c) (S (new c))
  else c.

Definition statusCounts (issues : list Issue) : StatusCounts :=
  fold_left count_status issues (Build_StatusCounts 0 0 0 0 0 0).

(** *** 2. Priority breakdown *)

Definition count_priority (c : PriorityCounts) (issue : Issue)
  : PriorityCounts :=
  let priority := toLowerCase (priority issue) in
  if String.eqb priority "high" then
    Build_PriorityCounts (S (high c)) (normal c) (low c)
  else if String.eqb priority "normal" then
    Build_PriorityCounts (high c) (S (normal c)) (low c)
  else if String.eqb priority "low" then
    Build_PriorityCounts (high c) (normal c) (S (low c))
  else c.

Definition priorityCounts (issues : list Issue) : PriorityCounts :=
  fold_left count_priority issues (Build_PriorityCounts 0 0 0).

(** *** 3. Resolution timeliness *)

(** The mutable locals [onTime], [overdue] and [currentlyOverdue]. *)
Record Timeliness : Type := {
  onTime : nat; overdue : nat; currentlyOverdue : nat
}.

Definition count_timeliness (now : Z) (c : Timeliness) (issue : Issue)
  : Timeliness :=
  let status := toLowerCase (status issue) in
  let dueDate := due issue in
  if orb (String.eqb status "closed") (String.eqb status "solved") then
    let updatedDate := updated issue in
    if time_le (getTime updatedDate) (getTime dueDate) then
      Build_Timeliness (S (onTime c)) (overdue c) (currentlyOverdue c)
    else
      Build_Timeliness (onTime c) (S (overdue c)) (currentlyOverdue c)
  else if orb (String.eqb status "open")
            (orb (String.eqb status "pending")
               (orb (String.eqb status "hold") (String.eqb status "new")))
  then
    if time_gt (Some now) (getTime dueDate) then
      Build_Timeliness (onTime c) (overdue c) (S (currentlyOverdue c))
    else c
  else c.

Definition timeliness (now : Z) (issues : list Issue) : Timeliness :=
  fold_left (count_timeliness now) issues (Build_Timeliness 0 0 0).

(** *** 4. Average time to close of the high priority issues *)

Definition is_highPriorityClosed (issue : Issue) : bool :=
  let priority := toLowerCase (priority issue) in
  let status := toLowerCase (status issue) in
  andb (String.eqb priority "high")
    (orb (String.eqb status "closed") (String.eqb status "solved")).

Definition highPriorityClosed (issues : list Issue) : list Issue :=
  filter is_highPriorityClosed issues.

Definition timeDiffMs (issue : Issue) : option Z :=
  time_sub (getTime (updated issue)) (getTime (created issue)).

(** The loop over [highPriorityClosed]: the pair of [totalTimeToClose] and
    [timeToCloseArray]. *)
Definition accumulate (st : option Z * list Entry) (issue : Issue)
  : option Z * list Entry :=
  let d := timeDiffMs issue in
  (time_add (fst st) d, snd st ++ [Build_Entry issue d]).

Definition totalTimeToClose (issues : list Issue) : option Z :=
  fst (fold_left accumulate (highPriorityClosed issues) (Some 0%Z, [])).

Definition timeToCloseArray (issues : list Issue) : list Entry :=
  snd (fold_left accumulate (highPriorityClosed issues) (Some 0%Z, [])).

(** *** 5. The longest to solve *)

Definition longer (longest : option Entry) (current : Entry) : option Entry :=
  match longest with
  | None => Some current
  | Some l => if time_gt (timeMs current) (timeMs l) then Some current else Some l
  end.

Definition longestEntry (issues : list Issue) : option Entry :=
  fold_left longer (timeToCloseArray issues) None.

(** *** 6. Additional insights *)

(** In the loops below [None] is a thrown [TypeError], which ends the
    handler in its [catch]. *)

Definition count_type (o : JsObject Counter) (issue : Issue)
  : JsObject Counter :=
  let type := toLowerCase (type issue) in
  increment o type.

Definition issuesByType (issues : list Issue) : JsObject Counter :=
  fold_left count_type issues [].

(** One step of the loop that collects the scores.  A priority that names a
    member of [Object.prototype] finds that member, which is truthy: no
    entry is created, and [.scores.push] throws, [.scores] being
    [undefined]. *)
Definition collect_score (o : JsObject Scores) (issue : Issue)
  : option (JsObject Scores) :=
  let priority := toLowerCase (priority issue) in
  let o1 :=
    match js_get o priority with
    | Undefined => obj_set o priority (Build_Scores [])
    | _ => o
    end in
  if truthy (rating_score issue) then
    match js_get o1 priority, rating_score issue with
    | Own e, Some s =>
        Some (obj_set o1 priority (Build_Scores (scores e ++ [s])))
    | Own e, None => Some o1
    | _, _ => None
    end
  else Some o1.

Definition collect_next (acc : option (JsObject Scores)) (issue : Issue)
  : option (JsObject Scores) :=
  match acc with
  | Some o => collect_score o issue
  | None => None
  end.

Definition satisfactionByPriority (issues : list Issue)
  : option (JsObject Scores) :=
  fold_left collect_next issues (Some []).

Definition count_score (c : JsObject Counter) (score : string)
  : JsObject Counter :=
  increment c score.

Definition scoreCounts (scores : list string) : JsObject Counter :=
  fold_left count_score scores [].

(** [scoreCounts[a] > scoreCounts[b]] *)
Definition count_gt (c : JsObject Counter) (a b : string) : bool :=
  greater (js_get c a) (js_get c b).

(** [Object.keys(scoreCounts).reduce(...)]; it throws when no score was
    stored. *)
Definition mostCommon (scores : list string) : option string :=
  let c := scoreCounts scores in
  reduce1 (fun a b => if count_gt c a b then a else b) (Object_keys c).

(** One step of the loop over [Object.keys(satisfactionByPriority)]. *)
Definition select_mode (by_priority : JsObject Scores)
    (acc : option (JsObject string)) (priority : string)
  : option (JsObject string) :=
  match acc, js_get by_priority priority with
  | Some o, Own e =>
      if 0 <? List.length (scores e) then
        match mostCommon (scores e) with
        | Some m => Some (js_set o priority m)
        | None => None
        end
      else Some o
  | _, _ => None
  end.

Definition averageSatisfactionByPriority (issues : list Issue)
  : option (JsObject string) :=
  match satisfactionByPriority issues with
  | Some by_priority =>
      fold_left (select_mode by_priority) (Object_keys by_priority) (Some [])
  | None => None
  end.

(** *** The sections of the report and the response *)

Section Numbers.

Context {N : Type} `{JsNumber N}.

Definition of_count (n : nat) : N := of_int (Z.of_nat n).

(** [(count / total) * 100] *)
Definition percent (count total : nat) : N :=
  num_mul (num_div (of_count count) (of_count total)) (of_int 100).

(** [Math.round(x * 100) / 100] *)
Definition round2 (x : N) : N :=
  num_div (Math_round (num_mul x (of_int 100))) (of_int 100).

Definition statusBreakdown (issues : list Issue) : StatusBreakdown N :=
  let c := statusCounts issues in
  let totalIssues := List.length issues in
  Build_StatusBreakdown
    (open c) (closed c) (pending c) (hold c) (solved c) (new c)
    (percent (open c) totalIssues) (percent (closed c) totalIssues)
    (percent (pending c) totalIssues) (percent (hold c) totalIssues)
    (percent (solved c) totalIssues) (percent (new c) totalIssues).

Definition priorityBreakdown (issues : list Issue) : PriorityBreakdown N :=
  let c := priorityCounts issues in
  let totalIssues := List.length issues in
  Build_PriorityBreakdown
    (high c) (normal c) (low c)
    (percent (high c) totalIssues) (percent (normal c) totalIssues)
    (percent (low c) totalIssues).

Definition resolutionTimeliness (now : Z) (issues : list Issue)
  : ResolutionTimeliness N :=
  let c := timeliness now issues in
  let totalIssues := List.length issues in
  let totalResolved := onTime c + overdue c in
  Build_ResolutionTimeliness
    (onTime c) (overdue c) (currentlyOverdue c)
    (if 0 <? totalResolved then percent (onTime c) totalResolved
     else of_int 0)
    (if 0 <? totalResolved then percent (overdue c) totalResolved
     else of_int 0)
    (if 0 <? totalIssues then percent (currentlyOverdue c) totalIssues
     else of_int 0).

Definition averageTimeToCloseMs (issues : list Issue) : N :=
  let n := List.length (highPriorityClosed issues) in
  if 0 <? n then num_div (of_ms (totalTimeToClose issues)) (of_count n)
  else of_int 0.

Definition averageTimeToCloseHours (issues : list Issue) : N :=
  num_div (averageTimeToCloseMs issues) (of_int (1000 * 60 * 60)).

Definition averageTimeToCloseDays (issues : list Issue) : N :=
  num_div (averageTimeToCloseHours issues) (of_int 24).

Definition highPriorityAnalysis (issues : list Issue)
  : HighPriorityAnalysis N :=
  Build_HighPriorityAnalysis
    (round2 (averageTimeToCloseHours issues))
    (round2 (averageTimeToCloseDays issues))
    (List.length (highPriorityClosed issues)).

Definition longestToSolveHighPriority (issues : list Issue)
  : LongestToSolveHighPriority N :=
  match longestEntry issues with
  | Some e =>
      Build_LongestToSolveHighPriority
        (id (issue e))
        (round2 (num_div (of_ms (timeMs e)) (of_int (1000 * 60 * 60))))
        (round2 (num_div (of_ms (timeMs e)) (of_int (1000 * 60 * 60 * 24))))
        (or_else (rating_score (issue e)) "N/A")
  | None =>
      Build_LongestToSolveHighPriority 0%Z (of_int 0) (of_int 0) "N/A"
  end.

(** The handler after [axios.get]: [results] is [data.results], absent
    when the body has no such member, and [now] is the instant read by
    [new Date()]. *)
Definition GET (now : Z) (results : option (list Issue)) : Response N :=
  match results with
  | None => Status404 "No data found"
  | Some issues =>
      if List.length issues =? 0 then Status404 "No data found"
      else
        match averageSatisfactionByPriority issues with
        | Some by_priority =>
            let c := statusCounts issues in
            Json
              (Build_AnalysisResult
                 (statusBreakdown issues)
                 (priorityBreakdown issues)
                 (resolutionTimeliness now issues)
                 (highPriorityAnalysis issues)
                 (longestToSolveHighPriority issues)
                 (Build_AdditionalInsights
                    (List.length issues)
                    (issuesByType issues)
                    by_priority
                    (closed c)
                    (open c)))
        | None => Status500 "Failed to analyze data"
        end
  end.

End Numbers.

End analyze.

(** * The vocabulary of the specification, and sample data *)

(** ** The report *)

(** The report of a non-empty array. *)
Definition report {N} `{JsNumber N} (now : Z) (issues : list Issue)
    (by_priority : JsObject string) : AnalysisResult N :=
  Build_AnalysisResult
    (analyze.statusBreakdown issues)
    (analyze.priorityBreakdown issues)
    (analyze.resolutionTimeliness now issues)
    (analyze.highPriorityAnalysis issues)
    (analyze.longestToSolveHighPriority issues)
    (Build_AdditionalInsights
       (List.length issues)
       (analyze.issuesByType issues)
       by_priority
       (analyze.closed (analyze.statusCounts issues))
       (analyze.open (analyze.statusCounts issues))).

(** The twelve percentages of a report. *)
Definition percentages {N} (r : AnalysisResult N) : list N :=
  [ openPercent (statusBreakdown r); closedPercent (statusBreakdown r);
    pendingPercent (statusBreakdown r); holdPercent (statusBreakdown r);
    solvedPercent (statusBreakdown r); newPercent (statusBreakdown r);
    highPercent (priorityBreakdown r); normalPercent (priorityBreakdown r);
    lowPercent (priorityBreakdown r);
    onTimePercent (resolutionTimeliness r);
    overduePercent (resolutionTimeliness r);
    currentlyOverduePercent (resolutionTimeliness r) ].

(** ** Statuses and timeliness *)

Definition status_is (s : string) (issue : Issue) : bool :=
  String.eqb (toLowerCase (status issue)) s.

(** A record is resolved when its status is [closed] or [solved]. *)
Definition resolved (issue : Issue) : bool :=
  status_is "closed" issue || status_is "solved" issue.

(** The recognized statuses of a record that is not resolved. *)
Definition unresolved (issue : Issue) : bool :=
  status_is "open" issue || status_is "pending" issue
  || status_is "hold" issue || status_is "new" issue.

Definition recognized_status (issue : Issue) : bool :=
  existsb (String.eqb (toLowerCase (status issue)))
    ["open"; "closed"; "pending"; "hold"; "solved"; "new"].

Definition sum_status (c : analyze.StatusCounts) : nat :=
  analyze.open c + analyze.closed c + analyze.pending c
  + analyze.hold c + analyze.solved c + analyze.new c.

Inductive TimelinessClass : Type :=
| OnTime
| Overdue
| CurrentlyOverdue
| NotCounted.

Definition class_eqb (a b : TimelinessClass) : bool :=
  match a, b with
  | OnTime, OnTime | Overdue, Overdue
  | CurrentlyOverdue, CurrentlyOverdue | NotCounted, NotCounted => true
  | _, _ => false
  end.

(** The classification of one record at the instant [now]. *)
Definition classify (now : Z) (issue : Issue) : TimelinessClass :=
  if resolved issue then
    if time_le (getTime (updated issue)) (getTime (due issue))
    then OnTime else Overdue
  else if unresolved issue then
    if time_gt (Some now) (getTime (due issue))
    then CurrentlyOverdue else NotCounted
  else NotCounted.

Definition count_class (now : Z) (c : TimelinessClass) (issues : list Issue)
  : nat :=
  List.length (filter (fun i => class_eqb (classify now i) c) issues).

(** ** Scores *)

(** A key that names no member of [Object.prototype]. *)
Definition ordinary (k : string) : bool :=
  negb (String.eqb k "__proto__")
  && match obj_get Object_prototype k with Some _ => false | None => true end.

(** A string of ASCII characters. *)
Fixpoint ascii_only (s : string) : bool :=
  match s with
  | EmptyString => true
  | String c s' => (nat_of_ascii c <? 128) && ascii_only s'
  end.

(** The number stored under [s], [0] when there is none. *)
Definition cnt (c : JsObject Counter) (s : string) : nat :=
  match obj_get c s with Some (Count n) => n | _ => 0 end.

(** What a counting object holds under the key [k] after [n] additions. *)
Definition stored (k : string) (n : nat) : option Counter :=
  if n =? 0 then None
  else if String.eqb k "__proto__" then None
  else
    match obj_get Object_prototype k with
    | Some f => Some (Text f n)
    | None => Some (Count n)
    end.

(** The distinct elements of a list, in the order of their first
    occurrences. *)
Definition see (seen : list string) (s : string) : list string :=
  if existsb (String.eqb s) seen then seen else seen ++ [s].

Definition first_seen (l : list string) : list string := fold_left see l [].

(** The number of occurrences of [s] in [l]. *)
Definition frequency (l : list string) (s : string) : nat :=
  count_occ string_dec l s.

Definition has_priority (p : string) (issue : Issue) : bool :=
  String.eqb (toLowerCase (priority issue)) p.

(** An issue has a score when [issue.satisfaction_rating?.score] is truthy. *)
Definition has_score (issue : Issue) : bool := truthy (rating_score issue).

Definition score_list (issue : Issue) : list string :=
  match rating_score issue with
  | Some s => if truthy (Some s) then [s] else []
  | None => []
  end.

(** The scores of the issues of priority [p], in input order. *)
Definition scores_of (p : string) (issues : list Issue) : list string :=
  flat_map score_list (filter (has_priority p) issues).

Definition mode_at (by_priority : JsObject analyze.Scores) (p : string)
  : option string :=
  match obj_get by_priority p with
  | Some e => analyze.mostCommon (analyze.scores e)
  | None => None
  end.

(** The score of the record, if any, names no member of
    [Object.prototype]. *)
Definition ordinary_score (issue : Issue) : bool :=
  match rating_score issue with
  | Some s => ordinary s
  | None => true
  end.

(** The priority of the record is ASCII text. *)
Definition ascii_priority (issue : Issue) : bool :=
  ascii_only (priority issue).

(** [m] is the last element of [order] among those of greatest frequency in
    [scores]. *)
Definition last_of_greatest (order scores : list string) (m : string) : Prop :=
  exists l1 l2,
    order = l1 ++ m :: l2 /\
    (forall x, In x l1 -> frequency scores x <= frequency scores m) /\
    (forall x, In x l2 -> frequency scores x < frequency scores m).

(** ** Durations *)

Definition entry_of (issue : Issue) : analyze.Entry :=
  analyze.Build_Entry issue (analyze.timeDiffMs issue).

Definition total_of (issues : list Issue) (t : option Z) : option Z :=
  fold_left (fun t i => time_add t (analyze.timeDiffMs i)) issues t.

(** The sum of the durations of the records; it is not a number as soon as
    one duration is not. *)
Fixpoint sum_durations (l : list Issue) : option Z :=
  match l with
  | [] => Some 0%Z
  | i :: l' => time_add (analyze.timeDiffMs i) (sum_durations l')
  end.

(** An integer that a double holds exactly, as it holds every integer up to
    [2^53] in magnitude: on such integers the subtraction and the comparisons
    of doubles are those of the integers. *)
Definition safe_integer (z : Z) : bool := (Z.abs z <=? 2 ^ 53)%Z.

(** The duration of the record, if it is a number, is a safe integer. *)
Definition safe_duration (issue : Issue) : bool :=
  match analyze.timeDiffMs issue with
  | Some d => safe_integer d
  | None => true
  end.

(** The durations that are numbers add up, in magnitude, to a safe integer:
    every running total of the handler is then an integer that a double holds
    exactly, and the additions of doubles are those of the integers. *)
Definition magnitude (l : list Issue) : Z :=
  fold_right
    (fun i acc =>
       (match analyze.timeDiffMs i with
        | Some d => Z.abs d
        | None => 0
        end + acc)%Z)
    0%Z l.

Definition safe_total (l : list Issue) : bool := safe_integer (magnitude l).

(** The classes of the doubles, read on their specification: a double that is
    a number (any but [NaN]), and a double that is finite and not a zero. *)
Definition number (x : spec_float) : bool :=
  match x with
  | S754_nan => false
  | _ => true
  end.

Definition finite (x : spec_float) : bool :=
  match x with
  | S754_finite _ _ _ => true
  | _ => false
  end.

(** [m] is the first record of greatest duration, the comparisons being
    those of the language. *)
Definition first_of_longest (candidates : list Issue) (m : Issue) : Prop :=
  exists l1 l2,
    candidates = l1 ++ m :: l2 /\
    (forall x, In x l1 ->
       time_gt (analyze.timeDiffMs m) (analyze.timeDiffMs x) = true) /\
    (forall x, In x l2 ->
       time_le (analyze.timeDiffMs x) (analyze.timeDiffMs m) = true).

(** [m] is the first record of greatest duration among the records whose
    duration is a number. *)
Definition first_of_longest_numeric (candidates : list Issue) (m : Issue)
  : Prop :=
  exists l1 l2 d,
    candidates = l1 ++ m :: l2 /\
    analyze.timeDiffMs m = Some d /\
    (forall x dx, In x l1 -> analyze.timeDiffMs x = Some dx -> (dx < d)%Z) /\
    (forall x dx, In x l2 -> analyze.timeDiffMs x = Some dx -> (dx <= d)%Z).

(** The section of the report that describes the record [m]. *)
Definition longest_of {N} `{JsNumber N} (m : Issue)
  : LongestToSolveHighPriority N :=
  Build_LongestToSolveHighPriority
    (id m)
    (analyze.round2
       (num_div (of_ms (analyze.timeDiffMs m)) (of_int (1000 * 60 * 60))))
    (analyze.round2
       (num_div (of_ms (analyze.timeDiffMs m)) (of_int (1000 * 60 * 60 * 24))))
    (or_else (rating_score m) "N/A").

(** The value the report holds when no record qualifies. *)
Definition no_longest {N} `{JsNumber N} : LongestToSolveHighPriority N :=
  Build_LongestToSolveHighPriority 0%Z (of_int 0) (of_int 0) "N/A".

(** Some high-priority resolved record has a [created] or an [updated] that
    is not a date. *)
Definition has_unparseable_duration (issues : list Issue) : Prop :=
  exists i,
    In i (analyze.highPriorityClosed issues) /\
    (getTime (created i) = None \/ getTime (updated i) = None).

(** ** Exact quantities *)

Definition count_Q (n : nat) : Q := inject_Z (Z.of_nat n).

(** The mean of [n] durations of sum [total] milliseconds, in hours. *)
Definition mean_hours (total : Z) (n : nat) : Q :=
  (inject_Z total / count_Q n / inject_Z 3600000)%Q.

(** [x] rounded to two decimals, a tie going up. *)
Definition round_half_up_2 (x : Q) : Q :=
  (inject_Z (Qfloor (x * 100 + (1 # 2))) / 100)%Q.

(** ** Sample data *)

(** The fixture of the client tests ([mockDataExtended]), its timestamps as
    milliseconds since the epoch. *)
Definition mock_issue (i : Z) (c u d : Z) (st ty pr sc : string) : Issue :=
  Build_Issue i (valid_date c) (valid_date u) (valid_date d) st ty pr
    (Some (Build_SatisfactionRating sc)).

Definition mockDataExtended : list Issue :=
  [ mock_issue 1 1733393818750 1733410318750 1733411038750
      "open" "problem" "high" "good";
    mock_issue 2 1733389200000 1733392800000 1733396400000
      "closed" "question" "normal" "excellent";
    mock_issue 3 1733385600000 1733400000000 1733389200000
      "closed" "task" "high" "bad";
    mock_issue 4 1733396400000 1733398200000 1733428800000
      "pending" "problem" "low" "good" ].

(** An instant after every due date of the fixture (2025-01-01). *)
Definition mock_now : Z := 1735689600000.

(** An instant before every due date of the fixture (2024-12-05T09:00Z). *)
Definition mock_earlier : Z := 1733389200000.

Definition mock_by_priority : JsObject string :=
  [("high", "bad"); ("normal", "excellent"); ("low", "good")].

(** Two closed records of priority [high] that took two and ten hours
    (scenario C of the specification). *)
Definition two_and_ten_hours : list Issue :=
  [ mock_issue 1 1733385600000 1733392800000 1733428800000
      "closed" "task" "high" "good";
    mock_issue 2 1733364000000 1733400000000 1733428800000
      "solved" "task" "High" "bad" ].

(** Three closed records: the first met its due date, the two others did
    not. *)
Definition one_on_time_two_overdue : list Issue :=
  [ Build_Issue 1 (valid_date 1733385600000) (valid_date 1733389200000)
      (valid_date 1733392800000) "closed" "task" "normal" None;
    Build_Issue 2 (valid_date 1733385600000) (valid_date 1733396400000)
      (valid_date 1733392800000) "closed" "task" "normal" None;
    Build_Issue 3 (valid_date 1733385600000) (valid_date 1733400000000)
      (valid_date 1733392800000) "solved" "task" "low" None ].

(** Two closed records of priority [high] rated ["2"] and ["1"], in this
    order. *)
Definition rated_2_then_1 : list Issue :=
  [ mock_issue 1 1733385600000 1733400000000 1733389200000
      "closed" "task" "high" "2";
    mock_issue 2 1733389200000 1733392800000 1733396400000
      "closed" "task" "high" "1" ].

(** One closed record of priority [high] that took 1 h 0 min 18 s, which is
    1.005 h. *)
Definition one_hour_and_18_seconds : list Issue :=
  [ mock_issue 1 1733385600000 1733389218000 1733428800000
      "closed" "task" "high" "good" ].

(** Three records of priority [high] rated ["good"], ["good"] and
    ["constructor"], and one of priority [low] whose score is the empty
    string. *)
Definition rated_constructor : list Issue :=
  [ mock_issue 1 1733385600000 1733400000000 1733389200000
      "closed" "task" "high" "good";
    mock_issue 2 1733385600000 1733400000000 1733389200000
      "closed" "task" "high" "good";
    mock_issue 3 1733385600000 1733400000000 1733389200000
      "closed" "task" "high" "constructor";
    mock_issue 4 1733385600000 1733400000000 1733389200000
      "closed" "task" "low" "" ].

(** One record with a score, of priority ["constructor"]. *)
Definition priority_constructor : list Issue :=
  [ mock_issue 1 1733385600000 1733400000000 1733389200000
      "open" "task" "constructor" "good" ].

(** Two closed records of priority [high]: the first has an unparseable
    [created], the second took ten hours. *)
Definition unparseable_then_10h : list Issue :=
  [ Build_Issue 1 invalid_date (valid_date 1733400000000)
      (valid_date 1733428800000) "closed" "task" "high" None;
    Build_Issue 2 (valid_date 1733364000000) (valid_date 1733400000000)
      (valid_date 1733428800000) "closed" "task" "high" None ].

(** ** Statuses, priorities and types, one value at a time *)

Definition type_is (t : string) (issue : Issue) : bool :=
  String.eqb (toLowerCase (type issue)) t.

Definition recognized_priority (issue : Issue) : bool :=
  existsb (String.eqb (toLowerCase (priority issue))) ["high"; "normal"; "low"].

(** The number of records that satisfy [f]. *)
Definition count_if (f : Issue -> bool) (issues : list Issue) : nat :=
  List.length (filter f issues).

(** The type of the record is ASCII text, and its lowercase form names no
    member of [Object.prototype]. *)
Definition ascii_type (issue : Issue) : bool := ascii_only (type issue).

Definition ordinary_type (issue : Issue) : bool :=
  ordinary (toLowerCase (type issue)).

Definition number_of (c : Counter) : nat :=
  match c with Count n => n | Text _ _ => 0 end.

(** The sum of the numbers of a counting object. *)
Definition total_count (o : JsObject Counter) : nat :=
  list_sum (map (fun kv => number_of (snd kv)) o).

(** Two records that differ at most in the letter case of [status],
    [priority] and [type]. *)
Definition same_up_to_case (i j : Issue) : Prop :=
  id i = id j /\ created i = created j /\ updated i = updated j /\
  due i = due j /\ satisfaction_rating i = satisfaction_rating j /\
  toLowerCase (status i) = toLowerCase (status j) /\
  toLowerCase (priority i) = toLowerCase (priority j) /\
  toLowerCase (type i) = toLowerCase (type j).

(** The fixture with other spellings of the same statuses, priorities and
    types. *)
Definition mockDataShouted : list Issue :=
  [ mock_issue 1 1733393818750 1733410318750 1733411038750
      "OPEN" "Problem" "High" "good";
    mock_issue 2 1733389200000 1733392800000 1733396400000
      "Closed" "QUESTION" "NORMAL" "excellent";
    mock_issue 3 1733385600000 1733400000000 1733389200000
      "cloSED" "task" "HIGH" "bad";
    mock_issue 4 1733396400000 1733398200000 1733428800000
      "Pending" "PROBLEM" "Low" "good" ].

(** * The list view and the dashboard ([ServiceDesk.tsx]) *)

(** [a.sort(compare)] for a comparator that orders by a key: the sort of the
    language is stable, so the result is the one of any stable sort; here the
    elements are inserted from the last to the first, each one before the
    first element that does not precede it.  (For a comparator that is not
    consistent the language leaves the order to the engine.) *)
Fixpoint sort_insert {A} (compare : A -> A -> Z) (x : A) (l : list A)
  : list A :=
  match l with
  | [] => [x]
  | y :: l' =>
      if (0 <? compare x y)%Z then y :: sort_insert compare x l' else x :: l
  end.

Definition Array_sort {A} (compare : A -> A -> Z) (l : list A) : list A :=
  fold_right (sort_insert compare) [] l.

(** The white space of [trim], among the ASCII characters. *)
Definition is_white_space (c : ascii) : bool :=
  let n := nat_of_ascii c in
  ((9 <=? n) && (n <=? 13)) || (n =? 32).

(** [s.trim()] is the empty string. *)
Fixpoint blank (s : string) : bool :=
  match s with
  | EmptyString => true
  | String c s' => is_white_space c && blank s'
  end.

(** [s.includes(t)] *)
Fixpoint includes (s t : string) : bool :=
  prefix t s
  || match s with
     | EmptyString => false
     | String _ s' => includes s' t
     end.

Module ServiceDesk.

(** An element of [SampleData.results] as the component reads it: the fields
    that the handler reads and [organization_id]; the fields that are only
    displayed are left out. *)
Record Ticket : Type := { issue : Issue; organization_id : string }.

Definition priorityOrder : JsObject nat :=
  [("high", 1); ("normal", 2); ("low", 3)].

(** [priorityOrder[ticket.priority.toLowerCase()] || 99]; [None] is a member
    of [Object.prototype], which is truthy and no number. *)
Definition rank (t : Ticket) : option nat :=
  match js_get priorityOrder (toLowerCase (priority (issue t))) with
  | Own n => Some (if n =? 0 then 99 else n)
  | Undefined => Some 99
  | Inherited _ | Prototype => None
  end.

(** [priorityA - priorityB]; with a function or an object the difference is
    [NaN], which [sort] reads as [0]. *)
Definition by_priority (a b : Ticket) : Z :=
  match rank a, rank b with
  | Some x, Some y => (Z.of_nat x - Z.of_nat y)%Z
  | _, _ => 0%Z
  end.

Definition matches_search (searchLower : string) (t : Ticket) : bool :=
  includes (toLowerCase (organization_id t)) searchLower.

Definition is_open_high (t : Ticket) : bool :=
  String.eqb (toLowerCase (status (issue t))) "open"
  && String.eqb (toLowerCase (priority (issue t))) "high".

(** [data] is [data?.results], absent when there is no data yet. *)
Definition filteredAndSortedIssues (data : option (list Ticket))
    (filterOpenHighPriority : bool) (searchTerm : string) : list Ticket :=
  match data with
  | None => []
  | Some results =>
      let issues := results in
      let issues :=
        if negb (blank searchTerm) then
          let searchLower := toLowerCase searchTerm in
          filter (matches_search searchLower) issues
        else issues in
      let issues :=
        if filterOpenHighPriority then filter is_open_high issues
        else issues in
      Array_sort by_priority issues
  end.

Record DashboardStats : Type := {
  byPriority : JsObject Counter;
  byType : JsObject Counter;
  byStatus : JsObject Counter;
  bySatisfaction : JsObject Counter
}.

Definition count_ticket (st : DashboardStats) (t : Ticket) : DashboardStats :=
  let priority := toLowerCase (priority (issue t)) in
  let type := toLowerCase (type (issue t)) in
  let status := toLowerCase (status (issue t)) in
  let satisfaction := or_else (rating_score (issue t)) "N/A" in
  Build_DashboardStats
    (increment (byPriority st) priority)
    (increment (byType st) type)
    (increment (byStatus st) status)
    (increment (bySatisfaction st) satisfaction).

Definition dashboardStats (data : option (list Ticket)) : DashboardStats :=
  match data with
  | None => Build_DashboardStats [] [] [] []
  | Some results =>
      fold_left count_ticket results (Build_DashboardStats [] [] [] [])
  end.

(** The numbers of the summary card: [o['open'] || 0] and the like, for the
    three keys of the card, none of which names a member of
    [Object.prototype]. *)
Definition or_zero (o : JsObject Counter) (k : string) : Counter :=
  match obj_get o k with Some c => c | None => Count 0 end.

Definition openIssues (st : DashboardStats) : Counter :=
  or_zero (byStatus st) "open".

Definition highPriority (st : DashboardStats) : Counter :=
  or_zero (byPriority st) "high".

Definition closedIssues (st : DashboardStats) : Counter :=
  or_zero (byStatus st) "closed".

End ServiceDesk.

(** ** The vocabulary of the list view *)

(** A ticket passes the filters that are switched on. *)
Definition shown (filterOpenHighPriority : bool) (searchTerm : string)
    (t : ServiceDesk.Ticket) : bool :=
  (blank searchTerm
   || includes (toLowerCase (ServiceDesk.organization_id t))
        (toLowerCase searchTerm))
  && (negb filterOpenHighPriority
      || (status_is "open" (ServiceDesk.issue t)
          && has_priority "high" (ServiceDesk.issue t))).

(** The place of a priority in the list: [high], [normal], [low], then every
    other priority. *)
Definition priority_rank (t : ServiceDesk.Ticket) : nat :=
  if has_priority "high" (ServiceDesk.issue t) then 1
  else if has_priority "normal" (ServiceDesk.issue t) then 2
  else if has_priority "low" (ServiceDesk.issue t) then 3
  else 99.

Definition rank_le (a b : ServiceDesk.Ticket) : Prop :=
  priority_rank a <= priority_rank b.

Definition has_rank (k : nat) (t : ServiceDesk.Ticket) : bool :=
  priority_rank t =? k.

(** The texts of a ticket that the component folds or searches are ASCII. *)
Definition ascii_ticket (t : ServiceDesk.Ticket) : bool :=
  ascii_only (ServiceDesk.organization_id t)
  && ascii_only (status (ServiceDesk.issue t))
  && ascii_only (priority (ServiceDesk.issue t))
  && ascii_only (type (ServiceDesk.issue t)).

(** The priority of a ticket names no member of [Object.prototype]. *)
Definition ordinary_priority (t : ServiceDesk.Ticket) : bool :=
  ordinary (toLowerCase (priority (ServiceDesk.issue t))).

(** No key under which the dashboard counts a ticket names a member of
    [Object.prototype]. *)
Definition ordinary_ticket (t : ServiceDesk.Ticket) : bool :=
  ordinary (toLowerCase (priority (ServiceDesk.issue t)))
  && ordinary (toLowerCase (type (ServiceDesk.issue t)))
  && ordinary (toLowerCase (status (ServiceDesk.issue t)))
  && ordinary (or_else (rating_score (ServiceDesk.issue t)) "N/A").

(** The score under which the dashboard counts a ticket. *)
Definition satisfaction_is (k : string) (issue : Issue) : bool :=
  String.eqb (or_else (rating_score issue) "N/A") k.

(** The tickets of the fixture. *)
Definition mock_tickets : list ServiceDesk.Ticket :=
  map (fun p => ServiceDesk.Build_Ticket (fst p) (snd p))
    (combine mockDataExtended
       ["Acme Corp"; "Tech Solutions Inc"; "Global Systems"; "StartupXYZ"]).

(** Two entries of the same duration whose records have the same [id] and
    the same score. *)
Definition same_entry (e e' : option analyze.Entry) : Prop :=
  match e, e' with
  | Some a, Some b =>
      analyze.timeMs a = analyze.timeMs b /\
      id (analyze.issue a) = id (analyze.issue b) /\
      rating_score (analyze.issue a) = rating_score (analyze.issue b)
  | None, None => True
  | _, _ => False
  end.

(** No record is both of priority [high] and resolved. *)
Definition open_high_and_closed_low : list Issue :=
  [ mock_issue 1 0 7200000 0 "open" "task" "high" "good";
    mock_issue 2 0 7200000 0 "closed" "task" "low" "bad" ].

(** * Properties *)

(** ** Dictionaries *)

Section ObjectFacts.

Context {V : Type}.
Implicit Types (o : JsObject V) (k : string) (v : V).

Lemma obj_get_set_same o k v : obj_get (obj_set o k v) k = Some v.
Proof.
  induction o as [|[k' v'] o IH]; simpl.
  - now rewrite String.eqb_refl.
  - destruct (String.eqb k k') eqn:E; simpl; rewrite E; auto.
Qed.

Lemma obj_get_set_other o k v k' :
  k' <> k -> obj_get (obj_set o k v) k' = obj_get o k'.
Proof.
  intros Hne. induction o as [|[k1 v1] o IH]; simpl.
  - apply String.eqb_neq in Hne. now rewrite Hne.
  - destruct (String.eqb k k1) eqn:E; simpl.
    + apply String.eqb_eq in E. subst k1.
      apply String.eqb_neq in Hne. now rewrite Hne.
    + now rewrite IH.
Qed.

Lemma obj_keys_set o k v :
  map fst (obj_set o k v) =
  match obj_get o k with
  | Some _ => map fst o
  | None => map fst o ++ [k]
  end.
Proof.
  induction o as [|[k1 v1] o IH]; simpl; auto.
  destruct (String.eqb k k1) eqn:E; simpl; auto.
  rewrite IH. now destruct (obj_get o k).
Qed.

Lemma obj_get_In o k : (exists v, obj_get o k = Some v) <-> In k (map fst o).
Proof.
  induction o as [|[k1 v1] o IH]; simpl.
  - split; [intros [v H]; discriminate | tauto].
  - destruct (String.eqb_spec k k1) as [->|Hne].
    + split; eauto.
    + rewrite IH. split; auto. intros [H|H]; auto. congruence.
Qed.

Lemma obj_get_None o k : obj_get o k = None <-> ~ In k (map fst o).
Proof.
  rewrite <- obj_get_In. destruct (obj_get o k) as [v|].
  - split; [discriminate | intros H; exfalso; eauto].
  - split; auto. intros _ [v H]. discriminate.
Qed.

Lemma In_keys_set o k v k' :
  In k' (map fst (obj_set o k v)) <-> k' = k \/ In k' (map fst o).
Proof.
  rewrite obj_keys_set. destruct (obj_get o k) as [v0|] eqn:E.
  - split; auto. intros [->|H]; auto.
    apply obj_get_In. eauto.
  - rewrite in_app_iff. simpl. intuition congruence.
Qed.

End ObjectFacts.

Lemma In_insert_index n k l p :
  In p (insert_index n k l) <-> p = (n, k) \/ In p l.
Proof.
  induction l as [|[m k'] l IH]; simpl.
  - intuition congruence.
  - destruct (n <=? m)%N; simpl; rewrite ?IH; intuition congruence.
Qed.

Lemma In_index_keys ks n k :
  In (n, k) (index_keys ks) <-> In k ks /\ array_index k = Some n.
Proof.
  induction ks as [|k0 ks IH]; simpl.
  - tauto.
  - destruct (array_index k0) as [n0|] eqn:E.
    + rewrite In_insert_index, IH. split.
      * intros [H|[H1 H2]]; [inversion H; subst; auto | auto].
      * intros [[->|H1] H2]; [left; congruence | auto].
    + rewrite IH. split; [tauto|].
      intros [[->|H1] H2]; [congruence | auto].
Qed.

Lemma In_own_keys_order ks k : In k (own_keys_order ks) <-> In k ks.
Proof.
  unfold own_keys_order. rewrite in_app_iff, in_map_iff, filter_In.
  unfold is_named. split.
  - intros [[[n k'] [Hk Hin]]|[H _]]; auto.
    simpl in Hk. subst k'. now apply In_index_keys in Hin.
  - intros Hin. destruct (array_index k) as [n|] eqn:E; auto.
    left. exists (n, k). split; auto. apply In_index_keys. auto.
Qed.

Lemma In_Object_keys {V} (o : JsObject V) k :
  In k (Object_keys o) <-> In k (map fst o).
Proof. apply In_own_keys_order. Qed.

Lemma reduce1_nonempty {A} (f : A -> A -> A) (a : list A) :
  a <> [] -> exists m, reduce1 f a = Some m.
Proof. destruct a; [congruence | simpl; eauto]. Qed.

(** ** Reading and writing through the prototype *)

Lemma js_get_own {V} (o : JsObject V) k v :
  obj_get o k = Some v -> js_get o k = Own v.
Proof. unfold js_get. now intros ->. Qed.

Lemma js_get_ordinary {V} (o : JsObject V) k :
  ordinary k = true ->
  js_get o k = match obj_get o k with Some v => Own v | None => Undefined end.
Proof.
  unfold ordinary, js_get. intros Hk. apply andb_true_iff in Hk.
  destruct Hk as [Hp Hf]. apply negb_true_iff in Hp. rewrite Hp.
  destruct (obj_get o k); auto.
  now destruct (obj_get Object_prototype k).
Qed.

Lemma js_get_inherited {V} (o : JsObject V) k :
  obj_get o k = None -> ordinary k = false ->
  js_get o k = Prototype \/ exists f, js_get o k = Inherited f.
Proof.
  unfold ordinary, js_get. intros -> Hk.
  destruct (String.eqb k "__proto__"); auto.
  destruct (obj_get Object_prototype k) as [f|]; [eauto | discriminate].
Qed.

Lemma js_set_ordinary {V} (o : JsObject V) k v :
  ordinary k = true -> js_set o k v = obj_set o k v.
Proof.
  intros Hk. unfold js_set. rewrite js_get_ordinary by auto.
  now destruct (obj_get o k).
Qed.

(** ** Counting *)

Lemma existsb_eqb_In (s : string) (l : list string) :
  existsb (String.eqb s) l = true <-> In s l.
Proof.
  rewrite existsb_exists. split.
  - intros [x [Hin Heq]]. apply String.eqb_eq in Heq. now subst.
  - intros Hin. exists s. split; auto. apply String.eqb_refl.
Qed.

Lemma increment_other o x k :
  k <> x -> obj_get (increment o x) k = obj_get o k.
Proof.
  intros Hne. unfold increment.
  destruct (js_get o x) as [[n|f a]|f| |]; auto;
    now rewrite obj_get_set_other.
Qed.

Lemma stored_next x n :
  stored x (n + 1) =
  if String.eqb x "__proto__" then None
  else
    match obj_get Object_prototype x with
    | Some f => Some (Text f (n + 1))
    | None => Some (Count (n + 1))
    end.
Proof.
  unfold stored. replace (n + 1 =? 0) with false; auto.
  symmetry. apply Nat.eqb_neq. lia.
Qed.

Lemma increment_same o x n :
  obj_get o x = stored x n ->
  obj_get (increment o x) x = stored x (n + 1).
Proof.
  intros Ho. rewrite stored_next. unfold increment, js_get. rewrite Ho.
  unfold stored in *. destruct (n =? 0) eqn:En.
  - apply Nat.eqb_eq in En. subst n.
    destruct (String.eqb x "__proto__"); auto.
    destruct (obj_get Object_prototype x) as [f|];
      now rewrite obj_get_set_same.
  - destruct (String.eqb x "__proto__") eqn:Ep; auto.
    destruct (obj_get Object_prototype x) as [f|];
      now rewrite obj_get_set_same.
Qed.

Lemma frequency_snoc l x k :
  frequency (l ++ [x]) k = frequency l k + (if string_dec x k then 1 else 0).
Proof.
  unfold frequency. rewrite count_occ_app. simpl.
  destruct (string_dec x k); reflexivity.
Qed.

(** What a counting object holds after the additions of the list [l]. *)
Lemma counted l k :
  obj_get (fold_left increment l []) k = stored k (frequency l k).
Proof.
  induction l as [|x l IH] using rev_ind in k |- *.
  - reflexivity.
  - rewrite fold_left_app, frequency_snoc. simpl.
    destruct (string_dec x k) as [->|Hne].
    + apply increment_same, IH.
    + rewrite increment_other by congruence. now rewrite IH, Nat.add_0_r.
Qed.

Lemma scoreCounts_get l k :
  obj_get (analyze.scoreCounts l) k = stored k (frequency l k).
Proof. apply counted. Qed.

Lemma stored_Some k n :
  (exists v, stored k n = Some v) <-> 0 < n /\ k <> "__proto__".
Proof.
  unfold stored. destruct (n =? 0) eqn:En.
  - apply Nat.eqb_eq in En. split; [intros [v Hv]; discriminate | lia].
  - apply Nat.eqb_neq in En.
    destruct (String.eqb_spec k "__proto__") as [->|Hne].
    + split; [intros [v Hv]; discriminate | tauto].
    + split; [intros _; split; auto; lia|]. intros _.
      destruct (obj_get Object_prototype k); eauto.
Qed.

Lemma stored_ordinary k n :
  ordinary k = true -> 0 < n -> stored k n = Some (Count n).
Proof.
  unfold ordinary, stored. intros Hk Hn. apply andb_true_iff in Hk.
  destruct Hk as [Hp Hf]. apply negb_true_iff in Hp. rewrite Hp.
  replace (n =? 0) with false by (symmetry; apply Nat.eqb_neq; lia).
  now destruct (obj_get Object_prototype k).
Qed.

Lemma frequency_pos l s : In s l <-> 0 < frequency l s.
Proof. apply count_occ_In. Qed.

(** The keys of a counting object are the elements of the list but
    [__proto__]. *)
Lemma In_keys_scoreCounts l k :
  In k (map fst (analyze.scoreCounts l)) <-> In k l /\ k <> "__proto__".
Proof.
  rewrite <- obj_get_In, scoreCounts_get, stored_Some, frequency_pos.
  reflexivity.
Qed.

Lemma keys_increment o x :
  x <> "__proto__" -> map fst (increment o x) = see (map fst o) x.
Proof.
  intros Hx. apply String.eqb_neq in Hx.
  unfold increment, js_get, see. destruct (obj_get o x) as [v|] eqn:E.
  - assert (H : In x (map fst o)) by (apply obj_get_In; eauto).
    apply existsb_eqb_In in H. rewrite H.
    destruct v; rewrite obj_keys_set, E; reflexivity.
  - rewrite Hx.
    assert (H : existsb (String.eqb x) (map fst o) = false).
    { apply obj_get_None in E.
      destruct (existsb (String.eqb x) (map fst o)) eqn:E'; auto.
      apply existsb_eqb_In in E'. tauto. }
    rewrite H.
    destruct (obj_get Object_prototype x); rewrite obj_keys_set, E;
      reflexivity.
Qed.

Lemma keys_scoreCounts_from l : forall c,
  ~ In "__proto__" l ->
  map fst (fold_left analyze.count_score l c) = fold_left see l (map fst c).
Proof.
  induction l as [|x l IH]; intros c Hl; simpl; auto.
  rewrite IH by (simpl in Hl; tauto).
  unfold analyze.count_score. rewrite keys_increment; auto.
  simpl in Hl. intros ->. tauto.
Qed.

Lemma ordinary_not_proto k : ordinary k = true -> k <> "__proto__".
Proof. intros Hk ->. discriminate Hk. Qed.

Lemma keys_scoreCounts l :
  (forall s, In s l -> ordinary s = true) ->
  map fst (analyze.scoreCounts l) = first_seen l.
Proof.
  intros Hl. apply keys_scoreCounts_from.
  intros Hin. apply Hl in Hin. discriminate Hin.
Qed.

Lemma cnt_scoreCounts l s :
  (forall x, In x l -> ordinary x = true) ->
  cnt (analyze.scoreCounts l) s = frequency l s.
Proof.
  intros Hl. unfold cnt. rewrite scoreCounts_get.
  destruct (frequency l s) as [|n] eqn:E; [reflexivity|].
  rewrite stored_ordinary; auto; [|lia].
  apply Hl, frequency_pos. lia.
Qed.

Lemma In_see seen x s : In s (see seen x) <-> s = x \/ In s seen.
Proof.
  unfold see. destruct (existsb (String.eqb x) seen) eqn:E.
  - apply existsb_eqb_In in E. intuition congruence.
  - rewrite in_app_iff. simpl. intuition congruence.
Qed.

Lemma In_fold_see l : forall seen s,
  In s (fold_left see l seen) <-> In s l \/ In s seen.
Proof.
  induction l as [|x l IH]; intros seen s; simpl.
  - tauto.
  - rewrite IH, In_see. intuition congruence.
Qed.

Lemma In_first_seen l s : In s (first_seen l) <-> In s l.
Proof. unfold first_seen. rewrite In_fold_see. simpl. tauto. Qed.

(** ** Counting the scores of one priority *)

(** Between two counted scores that name no member of [Object.prototype] the
    comparison of the handler is the comparison of two numbers. *)
Lemma count_gt_cnt l a b :
  (forall x, In x l -> ordinary x = true) ->
  In a l -> In b l ->
  analyze.count_gt (analyze.scoreCounts l) a b =
  (frequency l b <? frequency l a).
Proof.
  intros Hl Ha Hb. unfold analyze.count_gt.
  assert (Hget : forall x, In x l ->
            js_get (analyze.scoreCounts l) x = Own (Count (frequency l x))).
  { intros x Hx. apply js_get_own. rewrite scoreCounts_get.
    apply stored_ordinary; auto. now apply frequency_pos. }
  now rewrite (Hget a Ha), (Hget b Hb).
Qed.

(** The fold of [reduce] keeps the last key of greatest count. *)
Lemma last_greatest_fold l : forall rest k,
  (forall x, In x l -> ordinary x = true) ->
  (forall x, In x (k :: rest) -> In x l) ->
  let step := fun a b =>
    if analyze.count_gt (analyze.scoreCounts l) a b then a else b in
  exists l1 l2,
    k :: rest = l1 ++ fold_left step rest k :: l2 /\
    (forall x, In x l1 -> frequency l x <= frequency l (fold_left step rest k)) /\
    (forall x, In x l2 -> frequency l x < frequency l (fold_left step rest k)).
Proof.
  intros rest k Hl. revert k.
  induction rest as [|b rest IH] using rev_ind; intros k Hkeys step.
  - exists [], []. simpl. repeat split; intros x [].
  - rewrite fold_left_app. simpl.
    destruct (IH k) as (l1 & l2 & Heq & H1 & H2).
    { intros x Hx. apply Hkeys. simpl in *. rewrite in_app_iff. tauto. }
    fold step in Heq, H1, H2.
    set (m := fold_left step rest k) in *.
    assert (Hm : In m l).
    { apply Hkeys. change (In m ((k :: rest) ++ [b])).
      rewrite in_app_iff. left. rewrite Heq, in_app_iff. simpl. tauto. }
    assert (Hb : In b l).
    { apply Hkeys. simpl. rewrite in_app_iff. simpl. tauto. }
    assert (Hstep : step m b = if frequency l b <? frequency l m then m else b)
      by (unfold step; now rewrite (@count_gt_cnt l m b Hl Hm Hb)).
    rewrite Hstep. clear Hstep.
    destruct (frequency l b <? frequency l m) eqn:E.
    + apply Nat.ltb_lt in E. exists l1, (l2 ++ [b]). repeat split; auto.
      * change (k :: rest ++ [b]) with ((k :: rest) ++ [b]).
        rewrite Heq, <- app_assoc. reflexivity.
      * intros x Hx. apply in_app_iff in Hx. destruct Hx as [Hx|[<-|[]]]; auto.
    + apply Nat.ltb_ge in E. exists (l1 ++ m :: l2), []. repeat split.
      * change (k :: rest ++ [b]) with ((k :: rest) ++ [b]).
        now rewrite Heq.
      * intros x Hx. apply in_app_iff in Hx. destruct Hx as [Hx|[<-|Hx]]; auto.
        -- specialize (H1 x Hx). lia.
        -- specialize (H2 x Hx). lia.
      * intros x [].
Qed.

(** [reduce] throws exactly when every score of the list is [__proto__],
    for which nothing is stored. *)
Lemma mostCommon_None scores :
  analyze.mostCommon scores = None <->
  forall s, In s scores -> s = "__proto__".
Proof.
  unfold analyze.mostCommon.
  destruct (Object_keys (analyze.scoreCounts scores)) as [|k rest] eqn:Hk;
    simpl.
  - split; auto. intros _ s Hs.
    destruct (String.eqb_spec s "__proto__") as [|Hne]; auto.
    assert (H : In s (Object_keys (analyze.scoreCounts scores)))
      by (apply In_Object_keys, In_keys_scoreCounts; auto).
    rewrite Hk in H. destruct H.
  - split; [discriminate|]. intros Hall.
    assert (H : In k (Object_keys (analyze.scoreCounts scores)))
      by (rewrite Hk; now left).
    apply In_Object_keys, In_keys_scoreCounts in H.
    destruct H as [Hin Hne]. apply Hall in Hin. contradiction.
Qed.

Lemma mostCommon_nonempty scores :
  (forall s, In s scores -> ordinary s = true) ->
  scores <> [] -> exists m, analyze.mostCommon scores = Some m.
Proof.
  intros Hl Hne.
  destruct (analyze.mostCommon scores) as [m|] eqn:E; [eauto|].
  destruct scores as [|s scores]; [congruence|].
  rewrite mostCommon_None in E.
  assert (Hs : ordinary s = true) by (apply Hl; now left).
  rewrite (E s (or_introl eq_refl)) in Hs. discriminate Hs.
Qed.

Lemma mostCommon_empty : analyze.mostCommon [] = None.
Proof. reflexivity. Qed.

(** The selected score, located in the enumeration of the counted keys. *)
Lemma mostCommon_last_greatest scores m :
  (forall s, In s scores -> ordinary s = true) ->
  analyze.mostCommon scores = Some m ->
  exists l1 l2,
    Object_keys (analyze.scoreCounts scores) = l1 ++ m :: l2 /\
    (forall x, In x l1 -> frequency scores x <= frequency scores m) /\
    (forall x, In x l2 -> frequency scores x < frequency scores m).
Proof.
  intros Hl. unfold analyze.mostCommon.
  destruct (Object_keys (analyze.scoreCounts scores)) as [|k rest] eqn:Hk;
    simpl; [discriminate|].
  intros Hm. injection Hm as Hm.
  destruct (@last_greatest_fold scores rest k Hl)
    as (l1 & l2 & Heq & H1 & H2).
  { intros x Hx. rewrite <- Hk in Hx.
    apply In_Object_keys, In_keys_scoreCounts in Hx. tauto. }
  rewrite Hm in Heq, H1, H2. exists l1, l2. repeat split; auto.
Qed.

Lemma mostCommon_mode scores m :
  (forall s, In s scores -> ordinary s = true) ->
  analyze.mostCommon scores = Some m ->
  In m scores /\ forall s, frequency scores s <= frequency scores m.
Proof.
  intros Hl Hm.
  destruct (@mostCommon_last_greatest scores m Hl Hm)
    as (l1 & l2 & Heq & H1 & H2).
  assert (Hkeys : forall x, In x (l1 ++ m :: l2) <-> In x scores).
  { intros x. rewrite <- Heq, In_Object_keys, keys_scoreCounts by auto.
    apply In_first_seen. }
  split.
  - apply Hkeys. rewrite in_app_iff. simpl. tauto.
  - intros s. destruct (in_dec string_dec s scores) as [Hin|Hout].
    + apply Hkeys in Hin. apply in_app_iff in Hin.
      destruct Hin as [Hin|[<-|Hin]]; auto.
      specialize (H2 s Hin). lia.
    + unfold frequency at 1.
      rewrite (proj1 (count_occ_not_In string_dec scores s) Hout). lia.
Qed.

(** ** Satisfaction scores by priority *)

Lemma collect_score_get o issue o' p :
  analyze.collect_score o issue = Some o' ->
  obj_get o' p =
  if has_priority p issue then
    match obj_get o p with
    | Some e =>
        Some (analyze.Build_Scores (analyze.scores e ++ score_list issue))
    | None =>
        if ordinary p then Some (analyze.Build_Scores (score_list issue))
        else None
    end
  else obj_get o p.
Proof.
  unfold analyze.collect_score, has_priority, score_list.
  set (q := toLowerCase (priority issue)).
  destruct (obj_get o q) as [e|] eqn:E.
  - rewrite !(js_get_own _ _ E).
    destruct (rating_score issue) as [s|]; simpl;
      [destruct (negb (String.eqb s "")); simpl|];
      intros [= <-];
      (destruct (String.eqb_spec q p) as [<-|Hne];
       [rewrite ?obj_get_set_same, ?E, ?app_nil_r; auto; now destruct e
       |rewrite ?obj_get_set_other by congruence; auto]).
  - destruct (ordinary q) eqn:Hq.
    + assert (Hj : js_get o q = Undefined)
        by (rewrite js_get_ordinary, E; auto).
      rewrite !Hj.
      rewrite (js_get_own _ _ (obj_get_set_same o q (analyze.Build_Scores []))).
      destruct (rating_score issue) as [s|]; simpl;
        [destruct (negb (String.eqb s "")); simpl|];
        intros [= <-];
        (destruct (String.eqb_spec q p) as [<-|Hne];
         [rewrite ?obj_get_set_same, ?E, ?Hq; auto
         |rewrite ?obj_get_set_other by congruence; auto]).
    + assert (Hj : js_get o q = Prototype \/ exists f, js_get o q = Inherited f)
        by now apply js_get_inherited.
      destruct Hj as [Hj|[f Hj]]; rewrite !Hj, ?Hj;
        (destruct (rating_score issue) as [s|]; simpl;
         [destruct (negb (String.eqb s "")); simpl|]; try discriminate;
         intros [= <-];
         (destruct (String.eqb_spec q p) as [<-|Hne];
          [rewrite ?E, ?Hq; auto | auto])).
Qed.
Lemma collect_score_None o issue :
  analyze.collect_score o issue = None <->
  has_score issue = true /\
  obj_get o (toLowerCase (priority issue)) = None /\
  ordinary (toLowerCase (priority issue)) = false.
Proof.
  unfold analyze.collect_score, has_score.
  set (q := toLowerCase (priority issue)).
  destruct (obj_get o q) as [e|] eqn:E.
  - rewrite !(js_get_own _ _ E).
    destruct (truthy (rating_score issue)), (rating_score issue);
      split; try discriminate; intros (_ & H & _); discriminate.
  - destruct (ordinary q) eqn:Hq.
    + assert (Hj : js_get o q = Undefined)
        by (rewrite js_get_ordinary, E; auto).
      rewrite !Hj.
      rewrite (js_get_own _ _ (obj_get_set_same o q (analyze.Build_Scores []))).
      destruct (truthy (rating_score issue)), (rating_score issue);
        split; try discriminate; intros (_ & _ & H); discriminate.
    + assert (Hj : js_get o q = Prototype \/ exists f, js_get o q = Inherited f)
        by now apply js_get_inherited.
      destruct Hj as [Hj|[f Hj]]; rewrite !Hj, ?Hj;
        destruct (truthy (rating_score issue)); split; auto;
        try discriminate; intros (H & _); discriminate.
Qed.

Lemma collect_next_None l : fold_left analyze.collect_next l None = None.
Proof. induction l; simpl; auto. Qed.

(** No own key of [satisfactionByPriority] names a member of
    [Object.prototype]. *)
Lemma collect_score_keys o issue o' :
  analyze.collect_score o issue = Some o' ->
  (forall k, In k (map fst o) -> ordinary k = true) ->
  forall k, In k (map fst o') -> ordinary k = true.
Proof.
  intros Hstep Ho k Hk. apply obj_get_In in Hk. destruct Hk as [e He].
  rewrite (collect_score_get _ _ k Hstep) in He.
  destruct (has_priority k issue).
  - destruct (obj_get o k) as [e0|] eqn:E.
    + apply Ho, obj_get_In. eauto.
    + destruct (ordinary k); [reflexivity | discriminate].
  - apply Ho, obj_get_In. eauto.
Qed.

Lemma satisfactionByPriority_from l : forall o o' p,
  fold_left analyze.collect_next l (Some o) = Some o' ->
  obj_get o' p =
  match obj_get o p with
  | Some e => Some (analyze.Build_Scores (analyze.scores e ++ scores_of p l))
  | None =>
      if existsb (has_priority p) l && ordinary p
      then Some (analyze.Build_Scores (scores_of p l))
      else None
  end.
Proof.
  unfold scores_of.
  induction l as [|i l IH]; intros o o' p; simpl.
  - intros [= <-]. destruct (obj_get o p) as [e|]; auto.
    rewrite app_nil_r. now destruct e.
  - destruct (analyze.collect_score o i) as [o1|] eqn:E;
      [|now rewrite collect_next_None].
    intros Hfold. rewrite (IH _ _ p Hfold), (collect_score_get _ _ p E).
    destruct (has_priority p i); simpl; auto.
    destruct (obj_get o p) as [e|]; simpl; [now rewrite app_assoc|].
    destruct (ordinary p); simpl; [reflexivity|].
    now rewrite andb_false_r.
Qed.

Lemma satisfactionByPriority_get issues by_priority p :
  analyze.satisfactionByPriority issues = Some by_priority ->
  obj_get by_priority p =
  if existsb (has_priority p) issues && ordinary p
  then Some (analyze.Build_Scores (scores_of p issues))
  else None.
Proof.
  intros Hs. apply (satisfactionByPriority_from _ _ p) in Hs. exact Hs.
Qed.

Lemma satisfactionByPriority_keys_from l : forall o o',
  fold_left analyze.collect_next l (Some o) = Some o' ->
  (forall k, In k (map fst o) -> ordinary k = true) ->
  forall k, In k (map fst o') -> ordinary k = true.
Proof.
  induction l as [|i l IH]; intros o o'; simpl.
  - now intros [= <-].
  - destruct (analyze.collect_score o i) as [o1|] eqn:E;
      [|now rewrite collect_next_None].
    intros Hfold Ho. apply (IH _ _ Hfold).
    now apply (collect_score_keys _ _ E).
Qed.

Lemma satisfactionByPriority_keys issues by_priority k :
  analyze.satisfactionByPriority issues = Some by_priority ->
  In k (map fst by_priority) -> ordinary k = true.
Proof.
  intros Hs. apply (satisfactionByPriority_keys_from _ _ Hs).
  intros k' [].
Qed.

(** The loop that collects the scores throws exactly when some record with a
    score has a priority that names a member of [Object.prototype]. *)
Lemma satisfactionByPriority_None_from l : forall o,
  (forall k, In k (map fst o) -> ordinary k = true) ->
  fold_left analyze.collect_next l (Some o) = None <->
  exists i, In i l /\ has_score i = true /\
            ordinary (toLowerCase (priority i)) = false.
Proof.
  induction l as [|i l IH]; intros o Ho; simpl.
  - split; [discriminate | intros (i & [] & _)].
  - destruct (analyze.collect_score o i) as [o1|] eqn:E.
    + rewrite (IH o1) by (now apply (collect_score_keys _ _ E)).
      split; intros (x & Hx & Hs & Hk); exists x; auto.
      destruct Hx as [<-|Hx]; auto. exfalso.
      assert (Hnone : analyze.collect_score o i = None).
      { apply collect_score_None. repeat split; auto.
        apply obj_get_None. intros Hin. apply Ho in Hin. congruence. }
      congruence.
    + rewrite collect_next_None. split; auto. intros _.
      apply collect_score_None in E. exists i. tauto.
Qed.

Lemma satisfactionByPriority_None issues :
  analyze.satisfactionByPriority issues = None <->
  exists i, In i issues /\ has_score i = true /\
            ordinary (toLowerCase (priority i)) = false.
Proof.
  apply satisfactionByPriority_None_from. intros k [].
Qed.

Lemma select_mode_None by_priority keys :
  fold_left (analyze.select_mode by_priority) keys None = None.
Proof. induction keys; simpl; auto. Qed.

Lemma select_mode_step by_priority acc k e :
  obj_get by_priority k = Some e -> ordinary k = true ->
  analyze.select_mode by_priority (Some acc) k =
  match analyze.scores e with
  | [] => Some acc
  | _ :: _ =>
      match analyze.mostCommon (analyze.scores e) with
      | Some m => Some (obj_set acc k m)
      | None => None
      end
  end.
Proof.
  intros He Hk. unfold analyze.select_mode. rewrite (js_get_own _ _ He).
  destruct (analyze.scores e) as [|s ss]; [reflexivity|].
  replace (0 <? List.length (s :: ss)) with true by reflexivity.
  destruct (analyze.mostCommon (s :: ss)); auto.
  now rewrite js_set_ordinary.
Qed.

(** The loop over the priorities stores the selected score of every priority
    that has a score; it throws exactly when [reduce] does. *)
Lemma select_mode_fold by_priority : forall keys acc,
  (forall k, In k keys -> In k (map fst by_priority) /\ ordinary k = true) ->
  match fold_left (analyze.select_mode by_priority) keys (Some acc) with
  | Some res =>
      (forall k e, In k keys -> obj_get by_priority k = Some e ->
                   analyze.scores e <> [] ->
                   analyze.mostCommon (analyze.scores e) <> None) /\
      forall p,
        obj_get res p =
        if existsb (String.eqb p) keys then
          match mode_at by_priority p with
          | Some m => Some m
          | None => obj_get acc p
          end
        else obj_get acc p
  | None =>
      exists k e, In k keys /\ obj_get by_priority k = Some e /\
                  analyze.scores e <> [] /\
                  analyze.mostCommon (analyze.scores e) = None
  end.
Proof.
  induction keys as [|k keys IH]; intros acc Hkeys.
  - simpl. split; auto; intros k e [].
  - cbn [fold_left existsb].
    destruct (Hkeys k (or_introl eq_refl)) as [Hk Hord].
    apply obj_get_In in Hk. destruct Hk as [e He].
    assert (Hrest : forall k', In k' keys ->
              In k' (map fst by_priority) /\ ordinary k' = true)
      by (intros k' Hk'; apply Hkeys; now right).
    rewrite (@select_mode_step by_priority acc k e He Hord).
    destruct (analyze.scores e) as [|s ss] eqn:Hs.
    + specialize (IH acc Hrest).
      destruct (fold_left _ keys (Some acc)) as [res|].
      * destruct IH as [Hno Hget]. split.
        -- intros k' e' [<-|Hk'] He' Hne; [|eauto].
           assert (e' = e) by congruence. subst e'. congruence.
        -- intros p. rewrite Hget.
           destruct (String.eqb_spec p k) as [->|Hne]; simpl; auto.
           unfold mode_at. rewrite He, Hs, mostCommon_empty.
           now destruct (existsb (String.eqb k) keys).
      * destruct IH as (k' & e' & Hk' & H). exists k', e'. simpl. tauto.
    + destruct (analyze.mostCommon (s :: ss)) as [m|] eqn:Hm.
      * specialize (IH (obj_set acc k m) Hrest).
        destruct (fold_left _ keys (Some (obj_set acc k m))) as [res|].
        -- destruct IH as [Hno Hget]. split.
           ++ intros k' e' [<-|Hk'] He' Hne; [|eauto].
              assert (e' = e) by congruence. subst e'.
              rewrite Hs, Hm. discriminate.
           ++ intros p. rewrite Hget.
              destruct (String.eqb_spec p k) as [->|Hne]; simpl.
              ** unfold mode_at. rewrite He, Hs, Hm, obj_get_set_same.
                 now destruct (existsb (String.eqb k) keys).
              ** now rewrite obj_get_set_other.
        -- destruct IH as (k' & e' & Hk' & H). exists k', e'. simpl. tauto.
      * rewrite select_mode_None. exists k, e. rewrite Hs. simpl.
        repeat split; auto. discriminate.
Qed.

Lemma scores_of_absent p issues :
  existsb (has_priority p) issues = false -> scores_of p issues = [].
Proof.
  unfold scores_of. induction issues as [|i issues IH]; simpl; auto.
  intros E. apply orb_false_iff in E. destruct E as [E1 E2].
  rewrite E1. auto.
Qed.

Lemma scores_of_unscored p issues :
  (forall i, In i issues -> has_priority p i = true -> has_score i = false) ->
  scores_of p issues = [].
Proof.
  unfold scores_of.
  induction issues as [|i issues IH]; simpl; auto. intros Hall.
  destruct (has_priority p i) eqn:Ep; simpl.
  - rewrite IH by auto.
    specialize (Hall i (or_introl eq_refl) Ep).
    unfold score_list, has_score in *.
    destruct (rating_score i); [now rewrite Hall | reflexivity].
  - apply IH. auto.
Qed.

(** The score lists of the collected object are the ones of the
    vocabulary. *)
Lemma mode_at_scores_of issues by_priority p :
  analyze.satisfactionByPriority issues = Some by_priority ->
  analyze.mostCommon (scores_of p issues) = mode_at by_priority p.
Proof.
  intros Hs. unfold mode_at. rewrite (@satisfactionByPriority_get issues by_priority p Hs).
  destruct (existsb (has_priority p) issues) eqn:Ep; simpl.
  - destruct (ordinary p) eqn:Ho; [reflexivity|].
    rewrite scores_of_unscored; [reflexivity|].
    intros i Hi Hp. destruct (has_score i) eqn:Es; auto. exfalso.
    assert (Hnone : analyze.satisfactionByPriority issues = None).
    { apply satisfactionByPriority_None. exists i. repeat split; auto.
      apply String.eqb_eq in Hp. unfold has_priority in Hp. congruence. }
    congruence.
  - now rewrite scores_of_absent.
Qed.

(** When the loop over the priorities ends, each priority holds the selected
    score of its list. *)
Lemma averageSatisfactionByPriority_get issues res :
  analyze.averageSatisfactionByPriority issues = Some res ->
  forall p, obj_get res p = analyze.mostCommon (scores_of p issues).
Proof.
  unfold analyze.averageSatisfactionByPriority.
  destruct (analyze.satisfactionByPriority issues) as [bp|] eqn:Hs;
    [|discriminate].
  intros Hfold p.
  pose proof (@select_mode_fold bp (Object_keys bp) []) as Hsel.
  unfold JsObject in *. rewrite Hfold in Hsel. destruct Hsel as [_ Hget].
  { intros k Hk. apply In_Object_keys in Hk. split; auto.
    now apply (@satisfactionByPriority_keys issues bp k Hs). }
  rewrite Hget, (@mode_at_scores_of issues bp p Hs). simpl.
  destruct (existsb (String.eqb p) (Object_keys bp)) eqn:Ek.
  - now destruct (mode_at bp p).
  - unfold mode_at.
    assert (Hout : obj_get bp p = None).
    { apply obj_get_None. rewrite <- In_Object_keys, <- existsb_eqb_In.
      congruence. }
    now rewrite Hout.
Qed.

(** The handler throws in two cases: a record with a score has a priority
    that names a member of [Object.prototype], or all the scores of some
    priority are [__proto__]. *)
Lemma averageSatisfactionByPriority_None issues :
  analyze.averageSatisfactionByPriority issues = None <->
  (exists i, In i issues /\ has_score i = true /\
             ordinary (toLowerCase (priority i)) = false) \/
  (exists p, scores_of p issues <> [] /\
             forall s, In s (scores_of p issues) -> s = "__proto__").
Proof.
  unfold analyze.averageSatisfactionByPriority.
  destruct (analyze.satisfactionByPriority issues) as [bp|] eqn:Hs.
  - pose proof (@select_mode_fold bp (Object_keys bp) []) as Hsel.
    assert (Hkeys : forall k, In k (Object_keys bp) ->
              In k (map fst bp) /\ ordinary k = true).
    { intros k Hk. apply In_Object_keys in Hk. split; auto.
      now apply (@satisfactionByPriority_keys issues bp k Hs). }
    specialize (Hsel Hkeys).
    assert (Hnot : ~ exists i, In i issues /\ has_score i = true /\
                     ordinary (toLowerCase (priority i)) = false).
    { intros H. apply satisfactionByPriority_None in H. congruence. }
    unfold JsObject in *.
    destruct (fold_left _ (Object_keys bp) (Some [])) as [res|].
    + destruct Hsel as [Hno _]. split; [discriminate|].
      intros [H|(p & Hne & Hall)]; [contradiction|]. exfalso.
      destruct (obj_get bp p) as [e|] eqn:He.
      * pose proof (@satisfactionByPriority_get issues bp p Hs) as Hget.
        rewrite He in Hget.
        destruct (existsb (has_priority p) issues && ordinary p);
          [|discriminate].
        injection Hget as ->. simpl in *.
        apply (Hno p _) in He; auto.
        -- apply He. now apply mostCommon_None.
        -- apply In_Object_keys, obj_get_In. eauto.
      * pose proof (@satisfactionByPriority_get issues bp p Hs) as Hget.
        rewrite He in Hget.
        destruct (existsb (has_priority p) issues) eqn:Ep; simpl in Hget.
        -- destruct (ordinary p) eqn:Ho; [discriminate|].
           apply Hne. apply scores_of_unscored.
           intros i Hi Hp. destruct (has_score i) eqn:Es; auto. exfalso.
           apply Hnot. exists i. repeat split; auto.
           apply String.eqb_eq in Hp. unfold has_priority in Hp. congruence.
        -- apply Hne. now apply scores_of_absent.
    + split; auto. intros _. right.
      destruct Hsel as (k & e & Hk & He & Hne & Hnone).
      pose proof (@satisfactionByPriority_get issues bp k Hs) as Hget.
      rewrite He in Hget.
      destruct (existsb (has_priority k) issues && ordinary k);
        [|discriminate].
      injection Hget as ->. simpl in *.
      exists k. split; auto. now apply mostCommon_None.
  - split; auto. intros _. left. now apply satisfactionByPriority_None.
Qed.

(** ** The response *)

Section Response.

Context {N : Type} `{JsNumber N}.

Lemma GET_Json now results r :
  analyze.GET now results = Json r ->
  exists issues by_priority,
    results = Some issues /\ issues <> [] /\
    analyze.averageSatisfactionByPriority issues = Some by_priority /\
    r = report now issues by_priority.
Proof.
  destruct results as [issues|]; [|discriminate].
  destruct issues as [|i issues]; [discriminate|].
  unfold analyze.GET. simpl List.length. simpl Nat.eqb.
  destruct (analyze.averageSatisfactionByPriority (i :: issues)) as [bp|]
    eqn:E; [|discriminate].
  intros [= <-]. exists (i :: issues), bp. repeat split; auto. discriminate.
Qed.

Lemma GET_Some_Json now issues r :
  analyze.GET now (Some issues) = Json r ->
  issues <> [] /\
  exists by_priority,
    analyze.averageSatisfactionByPriority issues = Some by_priority /\
    r = report now issues by_priority.
Proof.
  intros Hget. apply GET_Json in Hget.
  destruct Hget as (issues' & bp & Heq & Hne & Hbp & ->).
  injection Heq as <-. eauto.
Qed.

(** The answer for a non-empty array. *)
Lemma GET_nonempty now issues :
  issues <> [] ->
  analyze.GET now (Some issues) =
  match analyze.averageSatisfactionByPriority issues with
  | Some by_priority => Json (report now issues by_priority)
  | None => Status500 "Failed to analyze data"
  end.
Proof.
  intros Hne. unfold analyze.GET.
  destruct issues as [|i issues]; [congruence|]. reflexivity.
Qed.

End Response.

(** Replaces a report [r] answered for [issues] by its definition. *)
Tactic Notation "report_of" hyp(H) "as" ident(bp) ident(Hne) ident(Hbp) :=
  apply GET_Some_Json in H; destruct H as (Hne & bp & Hbp & ->).

(** ** The loader *)



(** ** The status counters *)

Lemma count_status_sum c issue :
  sum_status (analyze.count_status c issue) =
  sum_status c + (if recognized_status issue then 1 else 0).
Proof.
  unfold analyze.count_status, recognized_status, sum_status. simpl.
  set (s := toLowerCase (status issue)).
  repeat (match goal with
          | |- context [String.eqb s ?k] => destruct (String.eqb s k)
          end; simpl; try lia).
Qed.

Lemma statusCounts_sum_from issues : forall c,
  sum_status (fold_left analyze.count_status issues c) =
  sum_status c + List.length (filter recognized_status issues).
Proof.
  induction issues as [|i issues IH]; intros c; simpl.
  - lia.
  - rewrite IH, count_status_sum.
    destruct (recognized_status i); simpl; lia.
Qed.

Lemma filter_length_all {A} (f : A -> bool) (l : list A) :
  List.length (filter f l) = List.length l <-> forallb f l = true.
Proof.
  induction l as [|x l IH]; simpl.
  - tauto.
  - pose proof (filter_length_le f l) as Hle.
    destruct (f x); simpl.
    + rewrite <- IH. lia.
    + split; [lia | discriminate].
Qed.

(** C6. In the report of a non-empty array the six status counters add up to
    the number of records whose lowercased status is one of the six recognized
    values; the sum is at most [totalIssues], which counts every record, and
    equals it exactly when every record has a recognized status. *)
Theorem status_counters_at_most_total {N} `{JsNumber N}
    (now : Z) (issues : list Issue) (r : AnalysisResult N) :
  analyze.GET now (Some issues) = Json r ->
  let b := statusBreakdown r in
  let sum := open b + closed b + pending b + hold b + solved b + new b in
  sum = List.length (filter recognized_status issues) /\
  totalIssues (additionalInsights r) = List.length issues /\
  sum <= totalIssues (additionalInsights r) /\
  (sum = totalIssues (additionalInsights r) <->
   forall issue, In issue issues -> recognized_status issue = true).
Proof.
  intros Hget. report_of Hget as bp Hne Hbp. simpl.
  pose proof (statusCounts_sum_from issues (analyze.Build_StatusCounts 0 0 0 0 0 0))
    as Hsum.
  unfold sum_status in Hsum. simpl in Hsum. fold (analyze.statusCounts issues) in Hsum.
  rewrite Hsum. pose proof (filter_length_le recognized_status issues).
  repeat split; auto.
  - intros Hall. apply filter_length_all in Hall.
    now apply forallb_forall.
  - intros Hall. apply filter_length_all. now apply forallb_forall.
Qed.

(** The report of the fixture satisfies C6. *)
Lemma status_counters_at_most_total_witness :
  let r := report (N := float) mock_now mockDataExtended mock_by_priority in
  let b := statusBreakdown r in
  let sum := open b + closed b + pending b + hold b + solved b + new b in
  sum = 4 /\
  totalIssues (additionalInsights r) = 4 /\
  sum <= totalIssues (additionalInsights r) /\
  (sum = totalIssues (additionalInsights r) <->
   forall issue, In issue mockDataExtended -> recognized_status issue = true).
Proof.
  exact (@status_counters_at_most_total float _ mock_now mockDataExtended
           _ eq_refl).
Defined.

(** ** Timeliness *)

Lemma count_timeliness_class now c issue :
  let c' := analyze.count_timeliness now c issue in
  analyze.onTime c' =
    analyze.onTime c + (if class_eqb (classify now issue) OnTime then 1 else 0) /\
  analyze.overdue c' =
    analyze.overdue c + (if class_eqb (classify now issue) Overdue then 1 else 0) /\
  analyze.currentlyOverdue c' =
    analyze.currentlyOverdue c
    + (if class_eqb (classify now issue) CurrentlyOverdue then 1 else 0).
Proof.
  unfold analyze.count_timeliness, classify, resolved, unresolved, status_is.
  set (s := toLowerCase (status issue)).
  destruct (String.eqb s "closed" || String.eqb s "solved").
  - destruct (time_le _ _); simpl; lia.
  - rewrite <- !orb_assoc.
    destruct (String.eqb s "open" || _).
    + destruct (time_gt _ _); simpl; lia.
    + simpl. lia.
Qed.

Lemma timeliness_from now issues : forall c,
  let c' := fold_left (analyze.count_timeliness now) issues c in
  analyze.onTime c' = analyze.onTime c + count_class now OnTime issues /\
  analyze.overdue c' = analyze.overdue c + count_class now Overdue issues /\
  analyze.currentlyOverdue c' =
    analyze.currentlyOverdue c + count_class now CurrentlyOverdue issues.
Proof.
  unfold count_class.
  induction issues as [|i issues IH]; intros c; simpl.
  - lia.
  - destruct (IH (analyze.count_timeliness now c i)) as (H1 & H2 & H3).
    destruct (count_timeliness_class now c i) as (E1 & E2 & E3).
    rewrite H1, H2, H3, E1, E2, E3.
    destruct (classify now i); simpl; lia.
Qed.

Lemma count_class_disjoint now issues :
  count_class now OnTime issues + count_class now Overdue issues
  + count_class now CurrentlyOverdue issues <= List.length issues.
Proof.
  unfold count_class. induction issues as [|i issues IH]; simpl; auto.
  destruct (classify now i); simpl; lia.
Qed.

(** C3. The three counters of the report count the records classified
    on-time, overdue and currently-overdue: a resolved record is on-time when
    [updated <= due] and overdue otherwise; a record of a recognized unresolved
    status is currently-overdue exactly when [now > due]; any other record is
    not counted.  A record has one class, so it is counted at most once. *)
Theorem timeliness_counts_classes {N} `{JsNumber N}
    (now : Z) (issues : list Issue) (r : AnalysisResult N) :
  analyze.GET now (Some issues) = Json r ->
  let t := resolutionTimeliness r in
  onTime t = count_class now OnTime issues /\
  overdue t = count_class now Overdue issues /\
  currentlyOverdue t = count_class now CurrentlyOverdue issues /\
  onTime t + overdue t + currentlyOverdue t <= List.length issues.
Proof.
  intros Hget. report_of Hget as bp Hne Hbp. simpl.
  destruct (timeliness_from now issues (analyze.Build_Timeliness 0 0 0))
    as (H1 & H2 & H3).
  simpl in H1, H2, H3. fold (analyze.timeliness now issues) in H1, H2, H3.
  rewrite H1, H2, H3. repeat split; auto.
  apply count_class_disjoint.
Qed.

(** The report of the fixture satisfies C3: one closed record met its due
    date, one did not, and the open and the pending one are past due. *)
Lemma timeliness_counts_classes_witness :
  let t := resolutionTimeliness
             (report (N := float) mock_now mockDataExtended mock_by_priority) in
  onTime t = 1 /\ overdue t = 1 /\ currentlyOverdue t = 2 /\
  onTime t + overdue t + currentlyOverdue t <= 4.
Proof.
  exact (@timeliness_counts_classes float _ mock_now mockDataExtended
           _ eq_refl).
Defined.

(** ** The most common score of each priority *)

Lemma In_score_list issue s :
  In s (score_list issue) <->
  rating_score issue = Some s /\ has_score issue = true.
Proof.
  unfold score_list, has_score.
  destruct (rating_score issue) as [s0|]; simpl.
  - destruct (negb (String.eqb s0 "")); simpl.
    + split; [intros [<-|[]]; auto | intros [E _]; left; congruence].
    + split; [tauto | intros [_ E]; discriminate].
  - split; [tauto | intros [E _]; discriminate].
Qed.

Lemma In_scores_of p issues s :
  In s (scores_of p issues) <->
  exists issue, In issue issues /\ toLowerCase (priority issue) = p /\
                rating_score issue = Some s /\ has_score issue = true.
Proof.
  unfold scores_of. rewrite in_flat_map. split.
  - intros (i & Hi & Hs). apply filter_In in Hi. destruct Hi as [Hi Hp].
    apply In_score_list in Hs. apply String.eqb_eq in Hp.
    exists i. tauto.
  - intros (i & Hi & Hp & Hs). exists i. split.
    + apply filter_In. split; auto. now apply String.eqb_eq.
    + now apply In_score_list.
Qed.

Lemma has_score_rating issue :
  has_score issue = true -> exists s, rating_score issue = Some s.
Proof.
  unfold has_score. destruct (rating_score issue); [eauto | discriminate].
Qed.

Lemma scores_of_nonempty p issues :
  scores_of p issues <> [] <->
  exists issue, In issue issues /\ toLowerCase (priority issue) = p /\
                has_score issue = true.
Proof.
  split.
  - destruct (scores_of p issues) as [|s l] eqn:E; [congruence|]. intros _.
    assert (Hs : In s (scores_of p issues)) by (rewrite E; now left).
    apply In_scores_of in Hs. destruct Hs as (i & Hi & Hp & _ & Hs). eauto.
  - intros (i & Hi & Hp & Hs) E.
    destruct (has_score_rating _ Hs) as [s Hr].
    assert (Hin : In s (scores_of p issues))
      by (apply In_scores_of; exists i; auto).
    rewrite E in Hin. destruct Hin.
Qed.

Lemma In_scores_of_ordinary p issues s :
  forallb ordinary_score issues = true ->
  In s (scores_of p issues) -> ordinary s = true.
Proof.
  intros Hall Hs. apply In_scores_of in Hs.
  destruct Hs as (i & Hi & _ & Hr & _).
  rewrite forallb_forall in Hall. specialize (Hall i Hi).
  unfold ordinary_score in Hall. now rewrite Hr in Hall.
Qed.

Lemma mostCommon_Some_iff scores :
  (forall s, In s scores -> ordinary s = true) ->
  (exists m, analyze.mostCommon scores = Some m) <-> scores <> [].
Proof.
  intros Hl. split.
  - intros [m Hm] ->. discriminate.
  - now apply mostCommon_nonempty.
Qed.




(** ** The tie-break of the most common score *)

Lemma insert_index_sorted n k l :
  StronglySorted N.le (map fst l) ->
  StronglySorted N.le (map fst (insert_index n k l)).
Proof.
  induction l as [|[m k'] l IH]; simpl; intros Hs.
  - constructor; constructor.
  - destruct (n <=? m)%N eqn:E; simpl.
    + apply N.leb_le in E. constructor; auto.
      inversion Hs as [|? ? _ Hall]; subst.
      constructor; auto.
      eapply Forall_impl; [|exact Hall]. intros a Ha. simpl in *. lia.
    + apply N.leb_gt in E. inversion Hs as [|? ? Hs' Hall]; subst.
      constructor; auto.
      apply Forall_forall. intros a Ha. apply in_map_iff in Ha.
      destruct Ha as ([a' k''] & <- & Ha). apply In_insert_index in Ha.
      destruct Ha as [Ha|Ha].
      * inversion Ha; subst. simpl. lia.
      * rewrite Forall_forall in Hall. apply Hall.
        apply in_map_iff. exists (a', k''). auto.
Qed.

Lemma index_keys_sorted ks :
  StronglySorted N.le (map fst (index_keys ks)).
Proof.
  induction ks as [|k ks IH]; simpl.
  - constructor.
  - destruct (array_index k); auto. now apply insert_index_sorted.
Qed.

Lemma index_keys_named ks :
  (forall k, In k ks -> array_index k = None) -> index_keys ks = [].
Proof.
  induction ks as [|k ks IH]; simpl; auto. intros Hall.
  rewrite (Hall k) by auto. auto.
Qed.

Lemma own_keys_order_named ks :
  (forall k, In k ks -> array_index k = None) -> own_keys_order ks = ks.
Proof.
  intros Hall. unfold own_keys_order. rewrite index_keys_named by auto.
  simpl. induction ks as [|k ks IH]; simpl; auto.
  unfold is_named at 1. rewrite (Hall k) by (now left).
  f_equal. apply IH. intros k' Hk'. apply Hall. now right.
Qed.

(** C10, as the code has it.  When the priorities are ASCII text and no
    score names a member of [Object.prototype], the score stored under a
    priority is the last one of greatest frequency in the order in which
    [Object.keys] lists the counted scores: the scores that are array indices
    come first, in ascending numeric order, and the other scores follow in the
    order of their first occurrences.  When no score of the priority is an
    array index this is the order of first occurrences. *)
Theorem mode_is_last_of_greatest_in_key_order {N} `{JsNumber N}
    (now : Z) (issues : list Issue) (r : AnalysisResult N) :
  analyze.GET now (Some issues) = Json r ->
  forallb ascii_priority issues = true ->
  forallb ordinary_score issues = true ->
  forall p m,
    obj_get (averageSatisfactionByPriority (additionalInsights r)) p = Some m ->
    let scores := scores_of p issues in
    let indices := index_keys (first_seen scores) in
    last_of_greatest
      (map snd indices ++ filter is_named (first_seen scores)) scores m /\
    StronglySorted N.le (map fst indices) /\
    (forall n k, In (n, k) indices <-> In k scores /\ array_index k = Some n) /\
    ((forall s, In s scores -> array_index s = None) ->
     last_of_greatest (first_seen scores) scores m).
Proof.
  intros Hget _ Hord p m Hm. report_of Hget as bp Hne Hbp. simpl in Hm.
  rewrite (@averageSatisfactionByPriority_get issues bp Hbp) in Hm.
  assert (Hscores : forall s, In s (scores_of p issues) -> ordinary s = true)
    by (intros s; now apply In_scores_of_ordinary).
  apply (@mostCommon_last_greatest _ _ Hscores) in Hm.
  unfold Object_keys in Hm. rewrite keys_scoreCounts in Hm by exact Hscores.
  intros scores indices.
  assert (Hlast : last_of_greatest (own_keys_order (first_seen scores)) scores m)
    by exact Hm.
  split; [exact Hlast|]. split; [apply index_keys_sorted|]. split.
  - intros n k. unfold indices. rewrite In_index_keys, In_first_seen. tauto.
  - intros Hnamed. rewrite own_keys_order_named in Hlast; auto.
    intros k Hk. apply Hnamed. now apply In_first_seen.
Qed.

(** The theorem on the two records rated ["2"] and ["1"]: the key order is
    ["1"], ["2"] and the stored score is ["2"]. *)
Lemma mode_is_last_of_greatest_in_key_order_witness :
  let scores := scores_of "high" rated_2_then_1 in
  let indices := index_keys (first_seen scores) in
  last_of_greatest
    (map snd indices ++ filter is_named (first_seen scores)) scores "2" /\
  StronglySorted N.le (map fst indices) /\
  (forall n k, In (n, k) indices <-> In k scores /\ array_index k = Some n) /\
  ((forall s, In s scores -> array_index s = None) ->
   last_of_greatest (first_seen scores) scores "2").
Proof.
  exact (@mode_is_last_of_greatest_in_key_order float _ mock_now rated_2_then_1
           _ eq_refl eq_refl eq_refl "high" "2" eq_refl).
Defined.

(** C10 as stated fails on the same records: both scores occur once, ["2"] was
    met first and ["1"] last, and the stored score is ["2"]. *)
Lemma mode_not_last_in_first_seen_order :
  let r := report (N := float) mock_now rated_2_then_1 [("high", "2")] in
  let scores := scores_of "high" rated_2_then_1 in
  analyze.GET mock_now (Some rated_2_then_1) = Json r /\
  obj_get (averageSatisfactionByPriority (additionalInsights r)) "high"
    = Some "2" /\
  first_seen scores = ["2"; "1"] /\
  frequency scores "2" = frequency scores "1" /\
  ~ last_of_greatest (first_seen scores) scores "2".
Proof.
  repeat split.
  intros (l1 & l2 & Heq & H1 & H2).
  change (first_seen (scores_of "high" rated_2_then_1)) with ["2"; "1"] in Heq.
  destruct l1 as [|a [|b l1]]; simpl in Heq.
  - injection Heq as <-. specialize (H2 "1" (or_introl eq_refl)).
    vm_compute in H2. lia.
  - discriminate.
  - injection Heq as _ _ Heq. destruct l1; discriminate.
Qed.

(** ** The longest to solve *)

Lemma accumulate_from l : forall t a,
  fold_left analyze.accumulate l (t, a) = (total_of l t, a ++ map entry_of l).
Proof.
  unfold total_of.
  induction l as [|i l IH]; intros t a; simpl.
  - now rewrite app_nil_r.
  - unfold analyze.accumulate at 2. simpl. rewrite IH, <- app_assoc.
    reflexivity.
Qed.

Lemma timeToCloseArray_map issues :
  analyze.timeToCloseArray issues =
  map entry_of (analyze.highPriorityClosed issues).
Proof.
  unfold analyze.timeToCloseArray. now rewrite accumulate_from.
Qed.

Lemma totalTimeToClose_total issues :
  analyze.totalTimeToClose issues =
  total_of (analyze.highPriorityClosed issues) (Some 0%Z).
Proof.
  unfold analyze.totalTimeToClose. now rewrite accumulate_from.
Qed.

Lemma time_gt_nan_r a : time_gt a None = false.
Proof. now destruct a. Qed.

(** A first candidate without a numeric duration is never replaced. *)
Lemma longer_fold_nan first : forall rest,
  analyze.timeDiffMs first = None ->
  fold_left analyze.longer (map entry_of rest) (Some (entry_of first)) =
  Some (entry_of first).
Proof.
  intros rest Hnan. induction rest as [|c rest IH] using rev_ind; simpl; auto.
  rewrite map_app, fold_left_app, IH. simpl.
  now rewrite Hnan, time_gt_nan_r.
Qed.

(** From a first candidate with a numeric duration the fold keeps the first
    record of greatest numeric duration. *)
Lemma longer_fold_numeric first : forall rest d0,
  analyze.timeDiffMs first = Some d0 ->
  exists m,
    fold_left analyze.longer (map entry_of rest) (Some (entry_of first)) =
    Some (entry_of m) /\
    first_of_longest_numeric (first :: rest) m.
Proof.
  intros rest d0 Hd0. induction rest as [|c rest IH] using rev_ind.
  - exists first. split; auto. exists [], [], d0. simpl.
    repeat split; auto; intros x dx [].
  - destruct IH as (m & Hfold & l1 & l2 & d & Heq & Hd & H1 & H2).
    rewrite map_app, fold_left_app, Hfold. simpl. rewrite Hd.
    change (first :: rest ++ [c]) with ((first :: rest) ++ [c]). rewrite Heq.
    destruct (analyze.timeDiffMs c) as [dc|] eqn:Hc; simpl.
    + destruct (d <? dc)%Z eqn:E.
      * apply Z.ltb_lt in E. exists c. split; auto.
        exists (l1 ++ m :: l2), [], dc. repeat split; auto.
        -- intros x dx Hx Hdx. apply in_app_iff in Hx.
           destruct Hx as [Hx|[<-|Hx]].
           ++ specialize (H1 x dx Hx Hdx). lia.
           ++ assert (dx = d) by congruence. lia.
           ++ specialize (H2 x dx Hx Hdx). lia.
        -- intros x dx [].
      * apply Z.ltb_ge in E. exists m. split; auto.
        exists l1, (l2 ++ [c]), d. repeat split; auto.
        -- now rewrite <- app_assoc.
        -- intros x dx Hx Hdx. apply in_app_iff in Hx.
           destruct Hx as [Hx|[<-|[]]]; eauto.
           assert (dx = dc) by congruence. lia.
    + exists m. split; auto.
      exists l1, (l2 ++ [c]), d. repeat split; auto.
      * now rewrite <- app_assoc.
      * intros x dx Hx Hdx. apply in_app_iff in Hx.
        destruct Hx as [Hx|[<-|[]]]; eauto. congruence.
Qed.

Lemma first_of_longest_all_numeric candidates m :
  (forall x, In x candidates -> analyze.timeDiffMs x <> None) ->
  first_of_longest_numeric candidates m -> first_of_longest candidates m.
Proof.
  intros Hnum (l1 & l2 & d & Heq & Hd & H1 & H2).
  exists l1, l2. rewrite Hd. repeat split; auto.
  - intros x Hx. destruct (analyze.timeDiffMs x) as [dx|] eqn:E.
    + simpl. apply Z.ltb_lt. eauto.
    + exfalso. apply (Hnum x); auto. rewrite Heq, in_app_iff. auto.
  - intros x Hx. destruct (analyze.timeDiffMs x) as [dx|] eqn:E.
    + simpl. apply Z.leb_le. eauto.
    + exfalso. apply (Hnum x); auto. rewrite Heq, in_app_iff. simpl. auto.
Qed.

Lemma longestEntry_cases issues :
  match analyze.highPriorityClosed issues with
  | [] => analyze.longestEntry issues = None
  | first :: rest =>
      exists m,
        analyze.longestEntry issues = Some (entry_of m) /\
        match analyze.timeDiffMs first with
        | None => m = first
        | Some _ => first_of_longest_numeric (first :: rest) m
        end
  end.
Proof.
  unfold analyze.longestEntry. rewrite timeToCloseArray_map.
  destruct (analyze.highPriorityClosed issues) as [|first rest]; simpl; auto.
  destruct (analyze.timeDiffMs first) as [d0|] eqn:E.
  - now apply longer_fold_numeric with (d0 := d0).
  - exists first. split; auto. now apply longer_fold_nan.
Qed.




(** ** Exact arithmetic *)

Lemma count_Q_nonzero n : 0 < n -> ~ (count_Q n == 0)%Q.
Proof.
  unfold count_Q, Qeq. simpl. lia.
Qed.

Lemma exact_div_nonzero a b :
  ~ (b == 0)%Q -> Exact.div (Some a) (Some b) = Some (Qred (a / b)).
Proof.
  intros Hb. unfold Exact.div.
  destruct (Qeq_bool b 0) eqn:E; auto.
  apply Qeq_bool_iff in E. contradiction.
Qed.

Lemma exact_percent count total :
  0 < total ->
  exists q,
    analyze.percent (N := Exact.num) count total = Some q /\
    (q == count_Q count / count_Q total * 100)%Q.
Proof.
  intros Hpos. unfold analyze.percent, analyze.of_count.
  cbn [num_mul num_div of_int Exact_JsNumber].
  fold (count_Q count) (count_Q total).
  rewrite exact_div_nonzero by now apply count_Q_nonzero.
  unfold Exact.lift2. eexists. split; [reflexivity|].
  now rewrite !Qred_correct.
Qed.

Lemma exact_round2 x :
  exists h,
    analyze.round2 (N := Exact.num) (Some x) = Some h /\
    (h == round_half_up_2 x)%Q.
Proof.
  unfold analyze.round2.
  cbn [num_mul num_div of_int Math_round Exact_JsNumber].
  unfold Exact.lift2, Exact.round.
  rewrite exact_div_nonzero by (intros E; discriminate E).
  eexists. split; [reflexivity|].
  assert (E : Qfloor (Qred (x * inject_Z 100) + (1 # 2))
              = Qfloor (x * 100 + (1 # 2))).
  { apply Qfloor_comp. now rewrite Qred_correct. }
  rewrite E. unfold round_half_up_2. now rewrite Qred_correct.
Qed.

(** ** The percentages of the resolved records *)

Lemma count_Q_add a b : (count_Q (a + b) == count_Q a + count_Q b)%Q.
Proof.
  unfold count_Q. now rewrite Nat2Z.inj_add, inject_Z_plus.
Qed.




(** ** The average time to close *)

Lemma time_add_assoc a b c :
  time_add (time_add a b) c = time_add a (time_add b c).
Proof.
  destruct a, b, c; simpl; auto. f_equal. lia.
Qed.

Lemma total_of_sum l : forall t,
  total_of l t = time_add t (sum_durations l).
Proof.
  unfold total_of. induction l as [|i l IH]; intros t; simpl.
  - destruct t; simpl; auto. f_equal. lia.
  - now rewrite IH, time_add_assoc.
Qed.

Lemma totalTimeToClose_sum issues :
  analyze.totalTimeToClose issues =
  sum_durations (analyze.highPriorityClosed issues).
Proof.
  rewrite totalTimeToClose_total, total_of_sum.
  destruct (sum_durations _); reflexivity.
Qed.

Lemma In_highPriorityClosed issues i :
  In i (analyze.highPriorityClosed issues) <->
  In i issues /\ toLowerCase (priority i) = "high" /\ resolved i = true.
Proof.
  unfold analyze.highPriorityClosed. rewrite filter_In.
  unfold analyze.is_highPriorityClosed, resolved, status_is.
  rewrite andb_true_iff, String.eqb_eq. tauto.
Qed.

Lemma highPriorityClosed_filter issues :
  analyze.highPriorityClosed issues =
  filter (fun i => has_priority "high" i && resolved i) issues.
Proof.
  unfold analyze.highPriorityClosed. apply filter_ext. reflexivity.
Qed.

(** The two averages in exact arithmetic. *)
Lemma exact_averages issues :
  let n := List.length (analyze.highPriorityClosed issues) in
  0 < n ->
  match sum_durations (analyze.highPriorityClosed issues) with
  | Some total =>
      exists h d,
        analyze.round2 (N := Exact.num) (analyze.averageTimeToCloseHours issues)
          = Some h /\
        analyze.round2 (N := Exact.num) (analyze.averageTimeToCloseDays issues)
          = Some d /\
        (h == round_half_up_2 (mean_hours total n))%Q /\
        (d == round_half_up_2 (mean_hours total n / 24))%Q
  | None =>
      analyze.round2 (N := Exact.num) (analyze.averageTimeToCloseHours issues)
        = None /\
      analyze.round2 (N := Exact.num) (analyze.averageTimeToCloseDays issues)
        = None
  end.
Proof.
  intros n Hpos.
  unfold analyze.averageTimeToCloseDays, analyze.averageTimeToCloseHours,
    analyze.averageTimeToCloseMs.
  fold n. replace (0 <? n) with true by (symmetry; now apply Nat.ltb_lt).
  rewrite totalTimeToClose_sum.
  destruct (sum_durations (analyze.highPriorityClosed issues)) as [total|].
  - unfold analyze.of_count.
    cbn [of_ms num_div of_int Exact_JsNumber]. fold (count_Q n).
    rewrite exact_div_nonzero by now apply count_Q_nonzero.
    rewrite exact_div_nonzero by (intros E; discriminate E).
    rewrite exact_div_nonzero by (intros E; discriminate E).
    match goal with
    | |- context [analyze.round2 (Some (Qred (?x / inject_Z 24)))] =>
        destruct (exact_round2 x) as (h & Hh & Hrh);
        destruct (exact_round2 (Qred (x / inject_Z 24))) as (d & Hd & Hrd)
    end.
    exists h, d. repeat split; auto.
    + rewrite Hrh. unfold round_half_up_2, mean_hours.
      now rewrite !Qred_correct.
    + rewrite Hrd. unfold round_half_up_2, mean_hours.
      now rewrite !Qred_correct.
  - split; reflexivity.
Qed.




(** ** Binary64 arithmetic *)

Section Binary64.

Local Open Scope Z_scope.

(** The number of binary digits of a positive integer. *)
Lemma digits2_pos_bound p :
  2 ^ (Zpos (digits2_pos p) - 1) <= Zpos p < 2 ^ Zpos (digits2_pos p).
Proof.
  induction p as [p IH|p IH|]; cbn [digits2_pos].
  - rewrite Pos2Z.inj_succ.
    replace (Z.succ (Z.pos (digits2_pos p)) - 1) with (Z.pos (digits2_pos p)) by lia.
    rewrite Z.pow_succ_r by lia.
    assert (E : 2 ^ Z.pos (digits2_pos p) = 2 * 2 ^ (Z.pos (digits2_pos p) - 1)).
    { rewrite <- Z.pow_succ_r by lia. f_equal. lia. }
    lia.
  - rewrite Pos2Z.inj_succ.
    replace (Z.succ (Z.pos (digits2_pos p)) - 1) with (Z.pos (digits2_pos p)) by lia.
    rewrite Z.pow_succ_r by lia.
    assert (E : 2 ^ Z.pos (digits2_pos p) = 2 * 2 ^ (Z.pos (digits2_pos p) - 1)).
    { rewrite <- Z.pow_succ_r by lia. f_equal. lia. }
    lia.
  - simpl. lia.
Qed.

Lemma digits2_pos_iter p k :
  digits2_pos (Pos.iter xO p k) = (digits2_pos p + k)%positive.
Proof.
  induction k using Pos.peano_ind.
  - simpl. lia.
  - rewrite Pos.iter_succ. cbn [digits2_pos]. rewrite IHk. lia.
Qed.

Lemma digits2_pos_le p n :
  0 <= n -> Zpos p < 2 ^ n -> Zpos (digits2_pos p) <= n.
Proof.
  intros Hn Hp. destruct (digits2_pos_bound p) as [Hlo _].
  destruct (Z.le_gt_cases (Zpos (digits2_pos p)) n) as [|Hgt]; auto.
  assert (2 ^ n <= 2 ^ (Z.pos (digits2_pos p) - 1)) by (apply Z.pow_le_mono_r; lia).
  lia.
Qed.

(** A mantissa that is canonical for its exponent is not rounded. *)
Lemma canonical_round s m e :
  canonical_mantissa prec emax m e = true -> (e <=? emax - prec) = true ->
  binary_round_aux prec emax s (Zpos m) e loc_Exact = S754_finite s m e.
Proof.
  unfold canonical_mantissa. intros Hc He. apply Z.eqb_eq in Hc.
  unfold binary_round_aux, shr_fexp. cbn [Zdigits2 shr_record_of_loc].
  rewrite Hc, Z.sub_diag. cbn [shr shr_m loc_of_shr_record round_nearest_even Zdigits2 shr_record_of_loc].
  rewrite Hc, Z.sub_diag. cbn [shr shr_m]. now rewrite He.
Qed.

(** An integer below [2^53] is a double: its mantissa is shifted to 53 bits
    and nothing is rounded off. *)
Lemma binary_round_safe s m :
  Zpos m < 2 ^ 53 ->
  exists m' e', binary_round prec emax s m 0 = S754_finite s m' e' /\
    bounded prec emax m' e' = true.
Proof.
  intros Hm.
  assert (Hd : Zpos (digits2_pos m) <= 53) by (apply digits2_pos_le; [lia | exact Hm]).
  unfold binary_round, shl_align.
  assert (Hf : fexp prec emax (Z.pos (digits2_pos m) + 0) = Z.pos (digits2_pos m) - 53).
  { unfold fexp, SpecFloat.emin, prec, emax. lia. }
  rewrite Hf.
  destruct (Z.pos (digits2_pos m) - 53 - 0) as [|q|q] eqn:E; try lia.
  - exists m, 0.
    assert (Hc : canonical_mantissa prec emax m 0 = true).
    { unfold canonical_mantissa. apply Z.eqb_eq. rewrite Hf. lia. }
    split. + apply canonical_round; auto.
    + unfold bounded. now rewrite Hc.
  - exists (Pos.iter xO m q), (Z.pos (digits2_pos m) - 53).
    assert (Hc : canonical_mantissa prec emax (Pos.iter xO m q) (Z.pos (digits2_pos m) - 53) = true).
    { unfold canonical_mantissa. apply Z.eqb_eq. rewrite digits2_pos_iter.
      unfold fexp, SpecFloat.emin, prec, emax. lia. }
    assert (He : (Z.pos (digits2_pos m) - 53 <=? emax - prec) = true).
    { apply Z.leb_le. unfold emax, prec. lia. }
    split. + apply canonical_round; auto.
    + unfold bounded. now rewrite Hc, He.
Qed.

Lemma finite_number x : finite x = true -> number x = true.
Proof. now destruct x. Qed.

Lemma is_nan_Prim2SF x : PrimFloat.is_nan x = negb (number (Prim2SF x)).
Proof.
  unfold Prim2SF. destruct (PrimFloat.is_nan x); [reflexivity|].
  destruct (is_zero x); [reflexivity|].
  destruct (is_infinity x); [reflexivity|].
  destruct (Z.frexp x) as [r e].
  destruct (shr_fexp _ _ _ _ _) as [mrs e'].
  now destruct (shr_m mrs).
Qed.

(** The double of a safe integer other than 0 is finite and not a zero. *)
Lemma of_Z_finite z :
  z <> 0 -> safe_integer z = true -> finite (Prim2SF (Double.of_Z z)) = true.
Proof.
  unfold safe_integer. intros Hz Hs. apply Z.leb_le in Hs.
  destruct (Z.eq_dec (Z.abs z) (2 ^ 53)) as [E|E].
  - assert (Hcases : z = 2 ^ 53 \/ z = - 2 ^ 53) by lia.
    destruct Hcases as [-> | ->]; vm_compute; reflexivity.
  - unfold Double.of_Z. destruct z as [|m|m]; [congruence| |].
    + destruct (@binary_round_safe false m) as (m' & e' & Hr & Hb); [lia|].
      cbn [binary_normalize]. rewrite Hr, Prim2SF_SF2Prim; auto.
    + destruct (@binary_round_safe true m) as (m' & e' & Hr & Hb); [lia|].
      cbn [binary_normalize]. rewrite Hr, Prim2SF_SF2Prim; auto.
Qed.

Lemma of_Z_number z :
  safe_integer z = true -> PrimFloat.is_nan (Double.of_Z z) = false.
Proof.
  intros Hs. destruct (Z.eq_dec z 0) as [-> | Hz]; [reflexivity|].
  rewrite is_nan_Prim2SF, finite_number; auto. now apply of_Z_finite.
Qed.

(** Rounding never makes a [NaN] of a mantissa that is not negative. *)
Lemma shr_1_nonneg mrs : 0 <= shr_m mrs -> 0 <= shr_m (shr_1 mrs).
Proof.
  destruct mrs as [m r s]. cbn [shr_m]. intros Hm.
  destruct m as [|[p|p|]|p]; cbn; lia.
Qed.

Lemma iter_pos_nonneg n mrs :
  0 <= shr_m mrs -> 0 <= shr_m (iter_pos shr_1 n mrs).
Proof.
  revert mrs. induction n as [n IH|n IH|]; intros mrs Hm; cbn [iter_pos].
  - apply IH, IH. now apply shr_1_nonneg.
  - now apply IH, IH.
  - now apply shr_1_nonneg.
Qed.

Lemma shr_fexp_nonneg m e l :
  0 <= m -> 0 <= shr_m (fst (shr_fexp prec emax m e l)).
Proof.
  intros Hm. unfold shr_fexp, shr.
  assert (H0 : 0 <= shr_m (shr_record_of_loc m l))
    by (destruct l as [|[]]; exact Hm).
  destruct (fexp prec emax (Zdigits2 m + e) - e); cbn [fst]; auto.
  now apply iter_pos_nonneg.
Qed.

Lemma round_nearest_even_nonneg m l : 0 <= m -> 0 <= round_nearest_even m l.
Proof.
  intros Hm. destruct l as [|[]]; cbn [round_nearest_even]; try lia.
  destruct (Z.even m); lia.
Qed.

Lemma binary_round_aux_number s m e l :
  0 <= m -> number (binary_round_aux prec emax s m e l) = true.
Proof.
  intros Hm. unfold binary_round_aux.
  pose proof (shr_fexp_nonneg e l Hm) as H1.
  destruct (shr_fexp prec emax m e l) as [mrs' e']. cbn [fst] in H1.
  pose proof (@shr_fexp_nonneg
                (round_nearest_even (shr_m mrs') (loc_of_shr_record mrs'))
                e' loc_Exact
                (round_nearest_even_nonneg (loc_of_shr_record mrs') H1)) as H2.
  destruct (shr_fexp prec emax _ e' loc_Exact) as [mrs'' e'']. cbn [fst] in H2.
  destruct (shr_m mrs''); [reflexivity | | lia].
  now destruct (e'' <=? emax - prec).
Qed.

Lemma SFdiv_core_binary_nonneg m1 e1 m2 e2 :
  0 <= fst (fst (SFdiv_core_binary prec emax (Zpos m1) e1 (Zpos m2) e2)).
Proof.
  unfold SFdiv_core_binary.
  set (s := _ - _ - _).
  set (m' := match s with Z0 => _ | Zpos _ => _ | Zneg _ => _ end).
  assert (Hm' : 0 <= m').
  { unfold m'. destruct s; try lia. apply Z.shiftl_nonneg. lia. }
  pose proof (Z.div_pos m' (Zpos m2) Hm' ltac:(lia)) as Hq.
  unfold Z.div in Hq. destruct (Z.div_eucl m' (Z.pos m2)) as [q r]. exact Hq.
Qed.

Lemma SFdiv_number x y :
  number x = true -> finite y = true -> number (SFdiv prec emax x y) = true.
Proof.
  destruct x as [sx|sx| |sx mx ex], y as [sy|sy| |sy my ey];
    try discriminate; try reflexivity.
  intros _ _. cbn [SFdiv].
  pose proof (SFdiv_core_binary_nonneg mx ex my ey) as Hq.
  destruct (SFdiv_core_binary _ _ _ _ _ _) as [[q e] l]. cbn [fst] in Hq.
  now apply binary_round_aux_number.
Qed.

Lemma SFmul_number x y :
  number x = true -> finite y = true -> number (SFmul prec emax x y) = true.
Proof.
  destruct x as [sx|sx| |sx mx ex], y as [sy|sy| |sy my ey];
    try discriminate; try reflexivity.
  intros _ _. cbn [SFmul]. apply binary_round_aux_number. lia.
Qed.

(** A number divided by, or multiplied by, a finite double other than zero is
    a number (possibly an infinity). *)
Lemma div_number x y :
  PrimFloat.is_nan x = false -> finite (Prim2SF y) = true ->
  PrimFloat.is_nan (PrimFloat.div x y) = false.
Proof.
  rewrite !is_nan_Prim2SF, div_spec. intros Hx Hy.
  apply negb_false_iff in Hx. unfold SF64div. now rewrite SFdiv_number.
Qed.

Lemma mul_number x y :
  PrimFloat.is_nan x = false -> finite (Prim2SF y) = true ->
  PrimFloat.is_nan (PrimFloat.mul x y) = false.
Proof.
  rewrite !is_nan_Prim2SF, mul_spec. intros Hx Hy.
  apply negb_false_iff in Hx. unfold SF64mul. now rewrite SFmul_number.
Qed.

(** [Math.round] of a number is a number: the integer it converts is of
    magnitude at most [2^52]. *)
Lemma round_number x :
  PrimFloat.is_nan x = false -> PrimFloat.is_nan (Double.round x) = false.
Proof.
  intros Hx. unfold Double.round.
  pose proof (Prim2SF_valid x) as Hv.
  destruct (Prim2SF x) as [s|s| |s m e] eqn:E; auto.
  destruct (0 <=? e) eqn:He; auto.
  apply Z.leb_gt in He. cbv zeta.
  destruct (_ =? 0) eqn:Hk; [now destruct s|].
  apply of_Z_number. unfold safe_integer. apply Z.leb_le.
  cbn [valid_binary] in Hv. unfold bounded, canonical_mantissa in Hv.
  apply andb_true_iff in Hv. destruct Hv as [Hc _]. apply Z.eqb_eq in Hc.
  assert (Hd : Z.pos (digits2_pos m) <= 53).
  { unfold fexp, prec in Hc. lia. }
  assert (Hm : Z.pos m < 2 ^ 53).
  { destruct (digits2_pos_bound m) as [_ Hhi].
    eapply Z.lt_le_trans; [exact Hhi|]. apply Z.pow_le_mono_r; lia. }
  set (n := if s then Z.neg m else Z.pos m).
  assert (Hn : - 2 ^ 53 < n < 2 ^ 53) by (unfold n; destruct s; lia).
  assert (HP : 2 ^ (1 - e) = 2 * 2 ^ (- e)).
  { replace (1 - e) with (Z.succ (- e)) by lia. apply Z.pow_succ_r. lia. }
  assert (HP2 : 2 <= 2 ^ (- e)).
  { change 2 with (2 ^ 1) at 1. apply Z.pow_le_mono_r; lia. }
  rewrite HP. set (P := 2 ^ (- e)) in *.
  assert (Hlo : - 2 ^ 53 <= (2 * n + P) / (2 * P)).
  { apply Z.div_le_lower_bound; nia. }
  assert (Hhi : (2 * n + P) / (2 * P) <= 2 ^ 53).
  { apply Z.div_le_upper_bound; nia. }
  lia.
Qed.

End Binary64.

(** ** Unparseable timestamps *)

Lemma timeDiffMs_None i :
  analyze.timeDiffMs i = None <->
  getTime (created i) = None \/ getTime (updated i) = None.
Proof.
  unfold analyze.timeDiffMs.
  destruct (getTime (updated i)), (getTime (created i)); simpl;
    intuition discriminate.
Qed.

Lemma sum_durations_None_iff l :
  sum_durations l = None <->
  exists i, In i l /\ analyze.timeDiffMs i = None.
Proof.
  induction l as [|x l IH]; simpl.
  - split; [discriminate | intros (i & [] & _)].
  - destruct (analyze.timeDiffMs x) as [d|] eqn:Ex; simpl.
    + destruct (sum_durations l) as [t|]; simpl.
      * split; [discriminate|]. intros (i & [<-|Hi] & Hnan); [congruence|].
        assert (E : Some t = None) by (apply IH; eauto). discriminate E.
      * split; auto. intros _.
        destruct (proj1 IH eq_refl) as (i & Hi & Hnan). eauto.
    + split; auto. intros _. exists x. auto.
Qed.

Lemma sum_durations_None issues :
  sum_durations (analyze.highPriorityClosed issues) = None <->
  has_unparseable_duration issues.
Proof.
  unfold has_unparseable_duration. rewrite sum_durations_None_iff.
  split; intros (i & Hi & Hnan); exists i; split; auto;
    now apply timeDiffMs_None.
Qed.

Lemma exact_percent_numeric count total :
  0 < total -> isNaN (analyze.percent (N := Exact.num) count total) = false.
Proof.
  intros Hpos. destruct (exact_percent count Hpos) as (q & -> & _).
  reflexivity.
Qed.

Lemma Prim2SF_nan_inv f : Prim2SF f = S754_nan -> f = nan.
Proof.
  intros E. rewrite <- (SF2Prim_Prim2SF f), E. reflexivity.
Qed.

(** [NaN / y] is [NaN] in binary64 arithmetic. *)
Lemma double_div_nan y : PrimFloat.div nan y = nan.
Proof.
  apply Prim2SF_nan_inv. rewrite div_spec.
  change (Prim2SF nan) with S754_nan.
  unfold SF64div, SFdiv. now destruct (Prim2SF y).
Qed.

Lemma double_averages_nan issues :
  has_unparseable_duration issues ->
  analyze.round2 (N := float) (analyze.averageTimeToCloseHours issues) = nan /\
  analyze.round2 (N := float) (analyze.averageTimeToCloseDays issues) = nan.
Proof.
  intros Hnan.
  assert (Hpos : 0 < List.length (analyze.highPriorityClosed issues)).
  { destruct Hnan as (i & Hi & _).
    destruct (analyze.highPriorityClosed issues); [destruct Hi | simpl; lia]. }
  apply sum_durations_None in Hnan.
  unfold analyze.averageTimeToCloseDays, analyze.averageTimeToCloseHours,
    analyze.averageTimeToCloseMs.
  replace (0 <? _) with true by (symmetry; now apply Nat.ltb_lt).
  rewrite totalTimeToClose_sum, Hnan.
  cbn [of_ms num_div NaN Double_JsNumber].
  rewrite double_div_nan. split; reflexivity.
Qed.

Lemma safe_integer_le (a b : nat) :
  a <= b -> safe_integer (Z.of_nat b) = true ->
  safe_integer (Z.of_nat a) = true.
Proof.
  unfold safe_integer. rewrite !Z.leb_le. lia.
Qed.

(** A percentage of the handler is a number in binary64 arithmetic. *)
Lemma double_percent_number count total bound :
  0 < total -> count <= bound -> total <= bound ->
  safe_integer (Z.of_nat bound) = true ->
  isNaN (analyze.percent (N := float) count total) = false.
Proof.
  intros Hpos Hc Ht Hb. unfold analyze.percent, analyze.of_count.
  cbn [num_mul num_div of_int isNaN Double_JsNumber].
  apply mul_number; [|vm_compute; reflexivity].
  apply div_number.
  - apply of_Z_number. now apply safe_integer_le with bound.
  - apply of_Z_finite; [lia|]. now apply safe_integer_le with bound.
Qed.

Lemma double_round2_number x :
  PrimFloat.is_nan x = false ->
  isNaN (analyze.round2 (N := float) x) = false.
Proof.
  intros Hx. unfold analyze.round2.
  cbn [num_mul num_div of_int Math_round isNaN Double_JsNumber].
  apply div_number; [|vm_compute; reflexivity].
  apply round_number, mul_number; [exact Hx|vm_compute; reflexivity].
Qed.

Lemma sum_durations_magnitude l : forall t,
  sum_durations l = Some t -> (Z.abs t <= magnitude l)%Z.
Proof.
  induction l as [|i l IH]; intros t; simpl.
  - intros [= <-]. lia.
  - destruct (analyze.timeDiffMs i) as [d|]; [|discriminate].
    destruct (sum_durations l) as [t'|]; [|discriminate].
    simpl. intros [= <-]. specialize (IH t' eq_refl). lia.
Qed.

(** When every duration is a number, the two averages are numbers in binary64
    arithmetic. *)
Lemma double_averages_number issues t :
  sum_durations (analyze.highPriorityClosed issues) = Some t ->
  safe_total (analyze.highPriorityClosed issues) = true ->
  safe_integer (Z.of_nat (List.length issues)) = true ->
  isNaN (analyze.round2 (N := float) (analyze.averageTimeToCloseHours issues))
    = false /\
  isNaN (analyze.round2 (N := float) (analyze.averageTimeToCloseDays issues))
    = false.
Proof.
  intros Hsum Hsafe Hlen.
  assert (Hms : PrimFloat.is_nan
                  (analyze.averageTimeToCloseMs (N := float) issues) = false).
  { unfold analyze.averageTimeToCloseMs. cbv zeta.
    destruct (0 <? _) eqn:E; [|reflexivity].
    apply Nat.ltb_lt in E.
    rewrite totalTimeToClose_sum, Hsum. unfold analyze.of_count.
    cbn [of_ms num_div of_int Double_JsNumber].
    apply div_number.
    - apply of_Z_number. unfold safe_total, safe_integer in *.
      apply Z.leb_le in Hsafe. apply Z.leb_le.
      pose proof (sum_durations_magnitude _ Hsum).
      pose proof (Z.abs_nonneg (magnitude (analyze.highPriorityClosed issues))).
      lia.
    - apply of_Z_finite; [lia|].
      apply safe_integer_le with (List.length issues); auto.
      apply filter_length_le. }
  assert (Hh : PrimFloat.is_nan
                 (analyze.averageTimeToCloseHours (N := float) issues) = false).
  { unfold analyze.averageTimeToCloseHours.
    cbn [num_div of_int Double_JsNumber].
    apply div_number; [exact Hms|vm_compute; reflexivity]. }
  split; apply double_round2_number; [exact Hh|].
  unfold analyze.averageTimeToCloseDays. cbn [num_div of_int Double_JsNumber].
  apply div_number; [exact Hh|vm_compute; reflexivity].
Qed.

Lemma statusCounts_le issues :
  sum_status (analyze.statusCounts issues) <= List.length issues.
Proof.
  unfold analyze.statusCounts. rewrite statusCounts_sum_from.
  pose proof (filter_length_le recognized_status issues).
  unfold sum_status. simpl. lia.
Qed.

Lemma priorityCounts_le_from issues : forall c,
  let c' := fold_left analyze.count_priority issues c in
  analyze.high c' + analyze.normal c' + analyze.low c'
  <= analyze.high c + analyze.normal c + analyze.low c + List.length issues.
Proof.
  induction issues as [|i issues IH]; intros c; cbn [fold_left List.length].
  - cbv zeta. lia.
  - specialize (IH (analyze.count_priority c i)). cbv zeta in *.
    assert (Hstep :
      analyze.high (analyze.count_priority c i)
      + analyze.normal (analyze.count_priority c i)
      + analyze.low (analyze.count_priority c i)
      <= analyze.high c + analyze.normal c + analyze.low c + 1).
    { unfold analyze.count_priority. cbv zeta.
      repeat (destruct (String.eqb _ _)); simpl; lia. }
    lia.
Qed.

(** The twelve percentages of a report are numbers in binary64 arithmetic. *)
Lemma double_percentages_number now issues by_priority :
  issues <> [] ->
  safe_integer (Z.of_nat (List.length issues)) = true ->
  Forall (fun x => isNaN x = false)
    (percentages (report (N := float) now issues by_priority)).
Proof.
  intros Hne Hlen.
  assert (Hpos : 0 < List.length issues)
    by (destruct issues; [congruence | simpl; lia]).
  pose proof (statusCounts_le issues) as Hs. unfold sum_status in Hs.
  pose proof (priorityCounts_le_from issues (analyze.Build_PriorityCounts 0 0 0))
    as Hp.
  cbv zeta in Hp. simpl in Hp. fold (analyze.priorityCounts issues) in Hp.
  destruct (timeliness_from now issues (analyze.Build_Timeliness 0 0 0))
    as (T1 & T2 & T3).
  simpl in T1, T2, T3. fold (analyze.timeliness now issues) in T1, T2, T3.
  pose proof (count_class_disjoint now issues) as Hd.
  unfold percentages. simpl.
  replace (0 <? List.length issues) with true
    by (symmetry; now apply Nat.ltb_lt).
  repeat (apply Forall_cons;
          [try (apply double_percent_number with (List.length issues);
                [assumption | lia | lia | assumption])|]);
    try apply Forall_nil.
  - destruct (0 <? _) eqn:E; [|reflexivity]. apply Nat.ltb_lt in E.
    apply double_percent_number with (List.length issues); auto; lia.
  - destruct (0 <? _) eqn:E; [|reflexivity]. apply Nat.ltb_lt in E.
    apply double_percent_number with (List.length issues); auto; lia.
Qed.




(** ** The instant of the evaluation *)

Lemma classify_resolved_now now1 now2 issue c :
  c = OnTime \/ c = Overdue ->
  class_eqb (classify now1 issue) c = class_eqb (classify now2 issue) c.
Proof.
  unfold classify. intros [-> | ->];
    destruct (resolved issue), (unresolved issue),
      (time_le (getTime (updated issue)) (getTime (due issue))),
      (time_gt (Some now1) (getTime (due issue))),
      (time_gt (Some now2) (getTime (due issue)));
    reflexivity.
Qed.

Lemma count_class_resolved_now now1 now2 issues c :
  c = OnTime \/ c = Overdue ->
  count_class now1 c issues = count_class now2 c issues.
Proof.
  intros Hc. unfold count_class. f_equal. apply filter_ext.
  intros i. now apply classify_resolved_now.
Qed.

Lemma count_timeliness_now now1 now2 c issue :
  (unresolved issue = true ->
   time_gt (Some now1) (getTime (due issue)) =
   time_gt (Some now2) (getTime (due issue))) ->
  analyze.count_timeliness now1 c issue = analyze.count_timeliness now2 c issue.
Proof.
  unfold analyze.count_timeliness, unresolved, status_is.
  set (s := toLowerCase (status issue)).
  destruct (String.eqb s "closed" || String.eqb s "solved"); auto.
  rewrite <- !orb_assoc.
  destruct (String.eqb s "open" || _); auto.
  intros E. now rewrite E.
Qed.

Lemma timeliness_now now1 now2 issues :
  (forall i, In i issues -> unresolved i = true ->
     time_gt (Some now1) (getTime (due i)) =
     time_gt (Some now2) (getTime (due i))) ->
  analyze.timeliness now1 issues = analyze.timeliness now2 issues.
Proof.
  unfold analyze.timeliness.
  generalize (analyze.Build_Timeliness 0 0 0).
  induction issues as [|i issues IH]; intros c Hall; simpl; auto.
  rewrite (@count_timeliness_now now1 now2 c i) by (apply Hall; now left).
  apply IH. intros x Hx. apply Hall. now right.
Qed.

(** C8, as the code has it.  The report is determined by the array and by
    the instant [now] that the handler reads from the clock.  Everything but
    [currentlyOverdue] and [currentlyOverduePercent] is the same at any two
    instants; the whole report is the same at two instants that lie on the
    same side of the due date of every record of a recognized unresolved
    status. *)
Theorem report_depends_on_now_through_currentlyOverdue {N} `{JsNumber N}
    (now1 now2 : Z) (issues : list Issue) (r1 r2 : AnalysisResult N) :
  analyze.GET now1 (Some issues) = Json r1 ->
  analyze.GET now2 (Some issues) = Json r2 ->
  statusBreakdown r1 = statusBreakdown r2 /\
  priorityBreakdown r1 = priorityBreakdown r2 /\
  highPriorityAnalysis r1 = highPriorityAnalysis r2 /\
  longestToSolveHighPriority r1 = longestToSolveHighPriority r2 /\
  additionalInsights r1 = additionalInsights r2 /\
  onTime (resolutionTimeliness r1) = onTime (resolutionTimeliness r2) /\
  overdue (resolutionTimeliness r1) = overdue (resolutionTimeliness r2) /\
  onTimePercent (resolutionTimeliness r1)
    = onTimePercent (resolutionTimeliness r2) /\
  overduePercent (resolutionTimeliness r1)
    = overduePercent (resolutionTimeliness r2) /\
  ((forall i, In i issues -> unresolved i = true ->
      time_gt (Some now1) (getTime (due i)) =
      time_gt (Some now2) (getTime (due i))) ->
   r1 = r2).
Proof.
  intros Hget1 Hget2.
  report_of Hget1 as bp1 Hne1 Hbp1. report_of Hget2 as bp2 Hne2 Hbp2.
  assert (bp1 = bp2) by congruence. subst bp2.
  destruct (timeliness_from now1 issues (analyze.Build_Timeliness 0 0 0))
    as (A1 & B1 & _).
  destruct (timeliness_from now2 issues (analyze.Build_Timeliness 0 0 0))
    as (A2 & B2 & _).
  simpl in A1, B1, A2, B2.
  fold (analyze.timeliness now1 issues) in A1, B1.
  fold (analyze.timeliness now2 issues) in A2, B2.
  rewrite (@count_class_resolved_now now1 now2 issues OnTime) in A1 by auto.
  rewrite (@count_class_resolved_now now1 now2 issues Overdue) in B1 by auto.
  unfold report, analyze.resolutionTimeliness. simpl.
  rewrite A1, B1, A2, B2.
  repeat split; auto.
  intros Hside. now rewrite (timeliness_now now1 now2 issues Hside).
Qed.

(** The theorem on the fixture at two instants after every due date. *)
Lemma report_depends_on_now_through_currentlyOverdue_witness :
  let r1 := report (N := float) mock_now mockDataExtended mock_by_priority in
  let r2 := report (N := float) (mock_now + 1) mockDataExtended
              mock_by_priority in
  statusBreakdown r1 = statusBreakdown r2 /\
  priorityBreakdown r1 = priorityBreakdown r2 /\
  highPriorityAnalysis r1 = highPriorityAnalysis r2 /\
  longestToSolveHighPriority r1 = longestToSolveHighPriority r2 /\
  additionalInsights r1 = additionalInsights r2 /\
  onTime (resolutionTimeliness r1) = onTime (resolutionTimeliness r2) /\
  overdue (resolutionTimeliness r1) = overdue (resolutionTimeliness r2) /\
  onTimePercent (resolutionTimeliness r1)
    = onTimePercent (resolutionTimeliness r2) /\
  overduePercent (resolutionTimeliness r1)
    = overduePercent (resolutionTimeliness r2) /\
  ((forall i, In i mockDataExtended -> unresolved i = true ->
      time_gt (Some mock_now) (getTime (due i)) =
      time_gt (Some (mock_now + 1)%Z) (getTime (due i))) ->
   r1 = r2).
Proof.
  exact (@report_depends_on_now_through_currentlyOverdue float _
           mock_now (mock_now + 1) mockDataExtended _ _ eq_refl eq_refl).
Defined.

(** C8 as stated fails: the same array analysed before and after the due
    dates of its open and pending records gives two different reports. *)
Lemma same_input_two_reports :
  let r1 := report (N := float) mock_earlier mockDataExtended
              mock_by_priority in
  let r2 := report (N := float) mock_now mockDataExtended mock_by_priority in
  analyze.GET mock_earlier (Some mockDataExtended) = Json r1 /\
  analyze.GET mock_now (Some mockDataExtended) = Json r2 /\
  currentlyOverdue (resolutionTimeliness r1) = 0 /\
  currentlyOverdue (resolutionTimeliness r2) = 2 /\
  r1 <> r2.
Proof.
  repeat split.
  intros E.
  assert (E' : currentlyOverdue (resolutionTimeliness
                 (report (N := float) mock_earlier mockDataExtended
                    mock_by_priority)) =
               currentlyOverdue (resolutionTimeliness
                 (report (N := float) mock_now mockDataExtended
                    mock_by_priority)))
    by (now rewrite E).
  discriminate E'.
Qed.

(** ** The scenarios of the specification *)

(** Scenario B: one open record of priority [high], past its due date. *)
Example scenario_B :
  exists r,
    analyze.GET (N := float) mock_now (Some (firstn 1 mockDataExtended))
      = Json r /\
    open (statusBreakdown r) = 1 /\
    high (priorityBreakdown r) = 1 /\
    currentlyOverdue (resolutionTimeliness r) = 1 /\
    currentlyOverduePercent (resolutionTimeliness r) = 100%float.
Proof. eexists. split; [reflexivity|]. repeat split. Qed.

(** Scenario C: two resolved records of priority [high], of 2 h and 10 h. *)
Example scenario_C :
  exists r,
    analyze.GET (N := float) mock_now (Some two_and_ten_hours) = Json r /\
    averageTimeToCloseHours (highPriorityAnalysis r) = 6%float /\
    averageTimeToCloseDays (highPriorityAnalysis r) = 0.25%float /\
    issueId (longestToSolveHighPriority r) = 2%Z /\
    timeToSolveHours (longestToSolveHighPriority r) = 10%float /\
    satisfactionRatingScore (longestToSolveHighPriority r) = "bad".
Proof. eexists. split; [reflexivity|]. repeat split. Qed.

(** Scenario D: the four records of the fixture. *)
Example scenario_D :
  exists r,
    analyze.GET (N := float) mock_now (Some mockDataExtended) = Json r /\
    totalIssues (additionalInsights r) = 4 /\
    issuesByType (additionalInsights r)
      = [("problem", Count 2); ("question", Count 1); ("task", Count 1)] /\
    averageSatisfactionByPriority (additionalInsights r) = mock_by_priority /\
    issuesClosedCount (additionalInsights r) = 2 /\
    issuesOpenCount (additionalInsights r) = 1.
Proof. eexists. split; [reflexivity|]. repeat split. Qed.

(** * Further properties of the handler *)

(** ** Each counter on its own *)

Lemma count_status_each c issue :
  let c' := analyze.count_status c issue in
  analyze.open c' = analyze.open c + (if status_is "open" issue then 1 else 0) /\
  analyze.closed c' = analyze.closed c + (if status_is "closed" issue then 1 else 0) /\
  analyze.pending c' = analyze.pending c + (if status_is "pending" issue then 1 else 0) /\
  analyze.hold c' = analyze.hold c + (if status_is "hold" issue then 1 else 0) /\
  analyze.solved c' = analyze.solved c + (if status_is "solved" issue then 1 else 0) /\
  analyze.new c' = analyze.new c + (if status_is "new" issue then 1 else 0).
Proof.
  unfold analyze.count_status, status_is.
  set (s := toLowerCase (status issue)).
  destruct (String.eqb_spec s "open") as [->|_]; [simpl; lia|].
  destruct (String.eqb_spec s "closed") as [->|_]; [simpl; lia|].
  destruct (String.eqb_spec s "pending") as [->|_]; [simpl; lia|].
  destruct (String.eqb_spec s "hold") as [->|_]; [simpl; lia|].
  destruct (String.eqb_spec s "solved") as [->|_]; [simpl; lia|].
  destruct (String.eqb_spec s "new") as [->|_]; simpl; lia.
Qed.

Lemma statusCounts_each_from issues : forall c,
  let c' := fold_left analyze.count_status issues c in
  analyze.open c' = analyze.open c + count_if (status_is "open") issues /\
  analyze.closed c' = analyze.closed c + count_if (status_is "closed") issues /\
  analyze.pending c' = analyze.pending c + count_if (status_is "pending") issues /\
  analyze.hold c' = analyze.hold c + count_if (status_is "hold") issues /\
  analyze.solved c' = analyze.solved c + count_if (status_is "solved") issues /\
  analyze.new c' = analyze.new c + count_if (status_is "new") issues.
Proof.
  unfold count_if.
  induction issues as [|i issues IH]; intros c; cbn [fold_left filter].
  - cbn [List.length]. lia.
  - destruct (IH (analyze.count_status c i)) as (H1 & H2 & H3 & H4 & H5 & H6).
    destruct (count_status_each c i) as (E1 & E2 & E3 & E4 & E5 & E6).
    cbv zeta in *. rewrite H1, H2, H3, H4, H5, H6, E1, E2, E3, E4, E5, E6.
    repeat split;
      match goal with
      | |- context [if ?b then 1 else 0] => destruct b; cbn [List.length]; lia
      end.
Qed.

Lemma statusCounts_each issues :
  let c := analyze.statusCounts issues in
  analyze.open c = count_if (status_is "open") issues /\
  analyze.closed c = count_if (status_is "closed") issues /\
  analyze.pending c = count_if (status_is "pending") issues /\
  analyze.hold c = count_if (status_is "hold") issues /\
  analyze.solved c = count_if (status_is "solved") issues /\
  analyze.new c = count_if (status_is "new") issues.
Proof.
  exact (statusCounts_each_from issues (analyze.Build_StatusCounts 0 0 0 0 0 0)).
Qed.

(** X1.  Each of the six status counters of the report is the number of
    records whose lowercased status is that value, and [issuesClosedCount]
    and [issuesOpenCount] repeat the counters [closed] and [open]: records
    that are [solved] are not among the closed ones. *)
Theorem status_counters_count_their_status {N} `{JsNumber N}
    (now : Z) (issues : list Issue) (r : AnalysisResult N) :
  analyze.GET now (Some issues) = Json r ->
  let b := statusBreakdown r in
  open b = count_if (status_is "open") issues /\
  closed b = count_if (status_is "closed") issues /\
  pending b = count_if (status_is "pending") issues /\
  hold b = count_if (status_is "hold") issues /\
  solved b = count_if (status_is "solved") issues /\
  new b = count_if (status_is "new") issues /\
  issuesClosedCount (additionalInsights r) = closed b /\
  issuesOpenCount (additionalInsights r) = open b.
Proof.
  intros Hget. report_of Hget as bp Hne Hbp. simpl.
  destruct (statusCounts_each issues) as (H1 & H2 & H3 & H4 & H5 & H6).
  repeat split; assumption.
Qed.

(** The theorem on the fixture. *)
Lemma status_counters_count_their_status_witness :
  let b := statusBreakdown
             (report (N := float) mock_now mockDataExtended mock_by_priority) in
  open b = count_if (status_is "open") mockDataExtended /\
  closed b = count_if (status_is "closed") mockDataExtended /\
  pending b = count_if (status_is "pending") mockDataExtended /\
  hold b = count_if (status_is "hold") mockDataExtended /\
  solved b = count_if (status_is "solved") mockDataExtended /\
  new b = count_if (status_is "new") mockDataExtended /\
  issuesClosedCount
    (additionalInsights
       (report (N := float) mock_now mockDataExtended mock_by_priority))
  = closed b /\
  issuesOpenCount
    (additionalInsights
       (report (N := float) mock_now mockDataExtended mock_by_priority))
  = open b.
Proof.
  exact (@status_counters_count_their_status float _ mock_now mockDataExtended
           _ eq_refl).
Defined.

(** ** The priority counters *)

Lemma count_priority_each c issue :
  let c' := analyze.count_priority c issue in
  analyze.high c' = analyze.high c + (if has_priority "high" issue then 1 else 0) /\
  analyze.normal c' =
    analyze.normal c + (if has_priority "normal" issue then 1 else 0) /\
  analyze.low c' = analyze.low c + (if has_priority "low" issue then 1 else 0).
Proof.
  unfold analyze.count_priority, has_priority.
  set (p := toLowerCase (priority issue)).
  destruct (String.eqb_spec p "high") as [->|_]; [simpl; lia|].
  destruct (String.eqb_spec p "normal") as [->|_]; [simpl; lia|].
  destruct (String.eqb_spec p "low") as [->|_]; simpl; lia.
Qed.

Lemma priorityCounts_each_from issues : forall c,
  let c' := fold_left analyze.count_priority issues c in
  analyze.high c' = analyze.high c + count_if (has_priority "high") issues /\
  analyze.normal c' =
    analyze.normal c + count_if (has_priority "normal") issues /\
  analyze.low c' = analyze.low c + count_if (has_priority "low") issues.
Proof.
  unfold count_if.
  induction issues as [|i issues IH]; intros c; cbn [fold_left filter].
  - cbn [List.length]. lia.
  - destruct (IH (analyze.count_priority c i)) as (H1 & H2 & H3).
    destruct (count_priority_each c i) as (E1 & E2 & E3).
    cbv zeta in *. rewrite H1, H2, H3, E1, E2, E3.
    repeat split;
      match goal with
      | |- context [if ?b then 1 else 0] => destruct b; cbn [List.length]; lia
      end.
Qed.

Lemma priorityCounts_each issues :
  let c := analyze.priorityCounts issues in
  analyze.high c = count_if (has_priority "high") issues /\
  analyze.normal c = count_if (has_priority "normal") issues /\
  analyze.low c = count_if (has_priority "low") issues.
Proof.
  exact (priorityCounts_each_from issues (analyze.Build_PriorityCounts 0 0 0)).
Qed.

Lemma recognized_priority_split issue :
  (if recognized_priority issue then 1 else 0) =
  (if has_priority "high" issue then 1 else 0)
  + (if has_priority "normal" issue then 1 else 0)
  + (if has_priority "low" issue then 1 else 0).
Proof.
  unfold recognized_priority, has_priority. cbn [existsb].
  set (p := toLowerCase (priority issue)).
  destruct (String.eqb_spec p "high") as [->|_]; [reflexivity|].
  destruct (String.eqb_spec p "normal") as [->|_]; [reflexivity|].
  destruct (String.eqb_spec p "low") as [->|_]; reflexivity.
Qed.

Lemma count_recognized_priority issues :
  count_if recognized_priority issues =
  count_if (has_priority "high") issues
  + count_if (has_priority "normal") issues
  + count_if (has_priority "low") issues.
Proof.
  unfold count_if. induction issues as [|i issues IH]; cbn [filter]; auto.
  pose proof (recognized_priority_split i) as Hs.
  destruct (recognized_priority i), (has_priority "high" i),
    (has_priority "normal" i), (has_priority "low" i);
    cbn [List.length] in *; lia.
Qed.

(** X2.  The three priority counters of the report are the numbers of records
    whose lowercased priority is [high], [normal] and [low].  They add up to
    at most [totalIssues], and to exactly [totalIssues] when and only when
    every record has one of these three priorities. *)
Theorem priority_counters_count_their_priority {N} `{JsNumber N}
    (now : Z) (issues : list Issue) (r : AnalysisResult N) :
  analyze.GET now (Some issues) = Json r ->
  let b := priorityBreakdown r in
  high b = count_if (has_priority "high") issues /\
  normal b = count_if (has_priority "normal") issues /\
  low b = count_if (has_priority "low") issues /\
  high b + normal b + low b <= totalIssues (additionalInsights r) /\
  (high b + normal b + low b = totalIssues (additionalInsights r) <->
   forall issue, In issue issues -> recognized_priority issue = true).
Proof.
  intros Hget. report_of Hget as bp Hne Hbp. simpl.
  destruct (priorityCounts_each issues) as (H1 & H2 & H3).
  rewrite H1, H2, H3, <- count_recognized_priority. unfold count_if.
  pose proof (filter_length_le recognized_priority issues).
  repeat split; auto.
  - intros Hall. apply filter_length_all in Hall. now apply forallb_forall.
  - intros Hall. apply filter_length_all. now apply forallb_forall.
Qed.

(** The theorem on the fixture. *)
Lemma priority_counters_count_their_priority_witness :
  let r := report (N := float) mock_now mockDataExtended mock_by_priority in
  let b := priorityBreakdown r in
  high b = count_if (has_priority "high") mockDataExtended /\
  normal b = count_if (has_priority "normal") mockDataExtended /\
  low b = count_if (has_priority "low") mockDataExtended /\
  high b + normal b + low b <= totalIssues (additionalInsights r) /\
  (high b + normal b + low b = totalIssues (additionalInsights r) <->
   forall issue, In issue mockDataExtended ->
     recognized_priority issue = true).
Proof.
  exact (@priority_counters_count_their_priority float _ mock_now
           mockDataExtended _ eq_refl).
Defined.

(** ** The sections of one report agree *)

Lemma count_if_sum (f g h : Issue -> bool) issues :
  (forall i, (if f i then 1 else 0) =
             (if g i then 1 else 0) + (if h i then 1 else 0)) ->
  count_if f issues = count_if g issues + count_if h issues.
Proof.
  intros Hsum. unfold count_if.
  induction issues as [|i issues IH]; cbn [filter]; auto.
  specialize (Hsum i).
  destruct (f i), (g i), (h i); cbn [List.length] in *; lia.
Qed.

Lemma count_if_le (f g : Issue -> bool) issues :
  (forall i, f i = true -> g i = true) ->
  count_if f issues <= count_if g issues.
Proof.
  intros Himp. unfold count_if.
  induction issues as [|i issues IH]; cbn [filter]; auto.
  specialize (Himp i).
  destruct (f i), (g i); cbn [List.length]; try lia.
Qed.

Lemma resolved_split issue :
  (if resolved issue then 1 else 0) =
  (if status_is "closed" issue then 1 else 0)
  + (if status_is "solved" issue then 1 else 0).
Proof.
  unfold resolved, status_is. set (s := toLowerCase (status issue)).
  destruct (String.eqb_spec s "closed") as [->|_]; [reflexivity|].
  destruct (String.eqb_spec s "solved") as [->|_]; reflexivity.
Qed.

Lemma resolved_classes now issue :
  (if resolved issue then 1 else 0) =
  (if class_eqb (classify now issue) OnTime then 1 else 0)
  + (if class_eqb (classify now issue) Overdue then 1 else 0).
Proof.
  unfold classify.
  destruct (resolved issue), (unresolved issue),
    (time_le (getTime (updated issue)) (getTime (due issue))),
    (time_gt (Some now) (getTime (due issue))); reflexivity.
Qed.

Lemma unresolved_cases issue :
  unresolved issue = true ->
  status_is "open" issue = true \/ status_is "pending" issue = true \/
  status_is "hold" issue = true \/ status_is "new" issue = true.
Proof.
  unfold unresolved. rewrite !orb_true_iff. tauto.
Qed.

Lemma unresolved_split issue :
  (if unresolved issue then 1 else 0) =
  (if status_is "open" issue then 1 else 0)
  + (if status_is "pending" issue then 1 else 0)
  + (if status_is "hold" issue then 1 else 0)
  + (if status_is "new" issue then 1 else 0).
Proof.
  unfold unresolved, status_is. set (s := toLowerCase (status issue)).
  destruct (String.eqb_spec s "open") as [->|_]; [reflexivity|].
  destruct (String.eqb_spec s "pending") as [->|_]; [reflexivity|].
  destruct (String.eqb_spec s "hold") as [->|_]; [reflexivity|].
  destruct (String.eqb_spec s "new") as [->|_]; reflexivity.
Qed.

Lemma count_unresolved issues :
  count_if unresolved issues =
  count_if (status_is "open") issues + count_if (status_is "pending") issues
  + count_if (status_is "hold") issues + count_if (status_is "new") issues.
Proof.
  unfold count_if. induction issues as [|i issues IH]; cbn [filter]; auto.
  pose proof (unresolved_split i) as Hs.
  destruct (unresolved i), (status_is "open" i), (status_is "pending" i),
    (status_is "hold" i), (status_is "new" i);
    cbn [List.length] in *; lia.
Qed.

(** X5.  The sections of one report are consistent: the records counted on
    time or overdue are the [closed] and [solved] ones; the records currently
    overdue are among the [open], [pending], [hold] and [new] ones; and the
    high-priority resolved records are among the [high] ones and among the
    [closed] and [solved] ones. *)
Theorem report_sections_agree {N} `{JsNumber N}
    (now : Z) (issues : list Issue) (r : AnalysisResult N) :
  analyze.GET now (Some issues) = Json r ->
  let s := statusBreakdown r in
  let t := resolutionTimeliness r in
  onTime t + overdue t = closed s + solved s /\
  currentlyOverdue t <= open s + pending s + hold s + new s /\
  totalClosedHighPriority (highPriorityAnalysis r) <= high (priorityBreakdown r) /\
  totalClosedHighPriority (highPriorityAnalysis r) <= closed s + solved s.
Proof.
  intros Hget. report_of Hget as bp Hne Hbp. simpl.
  destruct (statusCounts_each issues) as (H1 & H2 & H3 & H4 & H5 & H6).
  destruct (priorityCounts_each issues) as (P1 & _).
  destruct (timeliness_from now issues (analyze.Build_Timeliness 0 0 0))
    as (T1 & T2 & T3).
  simpl in T1, T2, T3. fold (analyze.timeliness now issues) in T1, T2, T3.
  cbv zeta in *. rewrite H1, H2, H3, H4, H5, H6, P1, T1, T2, T3.
  assert (Hres : count_if resolved issues =
                 count_if (status_is "closed") issues
                 + count_if (status_is "solved") issues)
    by (apply count_if_sum, resolved_split).
  assert (Hcls : count_if resolved issues =
                 count_class now OnTime issues + count_class now Overdue issues)
    by (apply (count_if_sum resolved), (resolved_classes now)).
  rewrite <- Hres. repeat split.
  - lia.
  - rewrite <- !Nat.add_assoc, !Nat.add_assoc, <- count_unresolved.
    apply (count_if_le (fun i => class_eqb (classify now i) CurrentlyOverdue)).
    intros i. unfold classify.
    destruct (resolved i), (unresolved i),
      (time_le (getTime (updated i)) (getTime (due i))),
      (time_gt (Some now) (getTime (due i))); simpl; congruence.
  - apply (count_if_le analyze.is_highPriorityClosed).
    intros i. unfold analyze.is_highPriorityClosed, has_priority.
    rewrite andb_true_iff. tauto.
  - apply (count_if_le analyze.is_highPriorityClosed).
    intros i. unfold analyze.is_highPriorityClosed, resolved, status_is.
    rewrite andb_true_iff. tauto.
Qed.

(** The theorem on the fixture. *)
Lemma report_sections_agree_witness :
  let r := report (N := float) mock_now mockDataExtended mock_by_priority in
  let s := statusBreakdown r in
  let t := resolutionTimeliness r in
  onTime t + overdue t = closed s + solved s /\
  currentlyOverdue t <= open s + pending s + hold s + new s /\
  totalClosedHighPriority (highPriorityAnalysis r) <= high (priorityBreakdown r) /\
  totalClosedHighPriority (highPriorityAnalysis r) <= closed s + solved s.
Proof.
  exact (@report_sections_agree float _ mock_now mockDataExtended _ eq_refl).
Defined.

(** ** Later instants *)

(** X6.  A record that is currently overdue stays so at every later instant:
    on the same array, [currentlyOverdue] does not decrease when [now]
    advances. *)
Theorem currentlyOverdue_grows_with_now {N} `{JsNumber N}
    (now1 now2 : Z) (issues : list Issue) (r1 r2 : AnalysisResult N) :
  (now1 <= now2)%Z ->
  analyze.GET now1 (Some issues) = Json r1 ->
  analyze.GET now2 (Some issues) = Json r2 ->
  currentlyOverdue (resolutionTimeliness r1)
  <= currentlyOverdue (resolutionTimeliness r2).
Proof.
  intros Hle Hget1 Hget2.
  report_of Hget1 as bp1 Hne1 Hbp1. report_of Hget2 as bp2 Hne2 Hbp2.
  simpl.
  destruct (timeliness_from now1 issues (analyze.Build_Timeliness 0 0 0))
    as (_ & _ & T1).
  destruct (timeliness_from now2 issues (analyze.Build_Timeliness 0 0 0))
    as (_ & _ & T2).
  simpl in T1, T2.
  fold (analyze.timeliness now1 issues) in T1.
  fold (analyze.timeliness now2 issues) in T2.
  rewrite T1, T2.
  apply (count_if_le (fun i => class_eqb (classify now1 i) CurrentlyOverdue)
           (fun i => class_eqb (classify now2 i) CurrentlyOverdue)).
  intros i. unfold classify.
  destruct (resolved i); [destruct (time_le _ _); discriminate|].
  destruct (unresolved i); [|discriminate].
  destruct (getTime (due i)) as [d|]; simpl; [|discriminate].
  destruct (d <? now1)%Z eqn:E1; [|discriminate].
  apply Z.ltb_lt in E1.
  replace (d <? now2)%Z with true by (symmetry; apply Z.ltb_lt; lia).
  reflexivity.
Qed.

(** The theorem on the fixture, before and after its due dates. *)
Lemma currentlyOverdue_grows_with_now_witness :
  currentlyOverdue
    (resolutionTimeliness
       (report (N := float) mock_earlier mockDataExtended mock_by_priority))
  <= currentlyOverdue
       (resolutionTimeliness
          (report (N := float) mock_now mockDataExtended mock_by_priority)).
Proof.
  apply (@currentlyOverdue_grows_with_now float _ mock_earlier mock_now
           mockDataExtended); [unfold mock_earlier, mock_now; lia | | ];
    reflexivity.
Defined.

(** ** Issues by type *)

Lemma fold_left_map_list {A B C} (f : A -> B -> A) (g : C -> B) (l : list C) :
  forall a, fold_left f (map g l) a = fold_left (fun a x => f a (g x)) l a.
Proof.
  induction l as [|x l IH]; intros a; simpl; auto.
Qed.

Lemma frequency_map {A} (key : A -> string) (l : list A) (k : string) :
  frequency (map key l) k =
  List.length (filter (fun x => String.eqb (key x) k) l).
Proof.
  unfold frequency. induction l as [|x l IH]; simpl; auto.
  destruct (string_dec (key x) k) as [E|E].
  - apply String.eqb_eq in E. rewrite E. simpl. now rewrite IH.
  - apply String.eqb_neq in E. now rewrite E.
Qed.

Lemma total_count_set c x v :
  total_count (obj_set c x v)
  + match obj_get c x with Some v0 => number_of v0 | None => 0 end
  = total_count c + number_of v.
Proof.
  unfold total_count.
  induction c as [|[k v0] c IH]; simpl.
  - lia.
  - destruct (String.eqb x k); simpl; lia.
Qed.

Lemma total_count_increment c x n :
  ordinary x = true -> obj_get c x = stored x n ->
  total_count (increment c x) = S (total_count c).
Proof.
  intros Hx Hc. unfold increment. rewrite js_get_ordinary by auto.
  destruct n as [|n].
  - rewrite Hc. simpl.
    pose proof (total_count_set c x (Count 1)) as Hset.
    rewrite Hc in Hset. simpl in Hset. lia.
  - rewrite stored_ordinary in Hc by (auto; lia). rewrite Hc.
    pose proof (total_count_set c x (Count (S n + 1))) as Hset.
    rewrite Hc in Hset. simpl in Hset. simpl. lia.
Qed.

Lemma total_count_scoreCounts l :
  (forall x, In x l -> ordinary x = true) ->
  total_count (analyze.scoreCounts l) = List.length l.
Proof.
  unfold analyze.scoreCounts.
  induction l as [|x l IH] using rev_ind; intros Hl.
  - reflexivity.
  - rewrite fold_left_app, length_app. simpl.
    unfold analyze.count_score at 1.
    rewrite (@total_count_increment _ x (frequency l x)).
    + rewrite IH; [lia|]. intros y Hy. apply Hl, in_app_iff. auto.
    + apply Hl, in_app_iff. simpl. auto.
    + apply counted.
Qed.

Lemma issuesByType_scoreCounts issues :
  analyze.issuesByType issues =
  analyze.scoreCounts (map (fun i => toLowerCase (type i)) issues).
Proof.
  unfold analyze.issuesByType, analyze.scoreCounts.
  now rewrite fold_left_map_list.
Qed.

(** The value stored under a type, whatever the type. *)
Lemma issuesByType_get issues t :
  obj_get (analyze.issuesByType issues) t =
  stored t (count_if (type_is t) issues).
Proof.
  rewrite issuesByType_scoreCounts, scoreCounts_get, frequency_map.
  reflexivity.
Qed.

(** X4.  For records whose types are ASCII text, [issuesByType] holds under
    every key what the additions of the records of that lowercased type
    leave there: nothing without such a record and nothing under [__proto__],
    the number of these records under a key that names no member of
    [Object.prototype], and under a key that names an inherited function the
    text of that function followed by one [1] per record.  When no type names
    a member of [Object.prototype] the values are the numbers of records of
    each type and add up to [totalIssues]. *)
Theorem issuesByType_counts_every_record {N} `{JsNumber N}
    (now : Z) (issues : list Issue) (r : AnalysisResult N) :
  analyze.GET now (Some issues) = Json r ->
  forallb ascii_type issues = true ->
  let by_type := issuesByType (additionalInsights r) in
  (forall t, obj_get by_type t = stored t (count_if (type_is t) issues)) /\
  (forallb ordinary_type issues = true ->
   (forall t,
      obj_get by_type t =
      if count_if (type_is t) issues =? 0 then None
      else Some (Count (count_if (type_is t) issues))) /\
   total_count by_type = totalIssues (additionalInsights r)).
Proof.
  intros Hget _. report_of Hget as bp Hne Hbp. simpl.
  split; [apply issuesByType_get|]. intros Hord.
  rewrite forallb_forall in Hord. split.
  - intros t. rewrite issuesByType_get.
    destruct (count_if (type_is t) issues =? 0) eqn:E.
    + apply Nat.eqb_eq in E. now rewrite E.
    + apply Nat.eqb_neq in E. apply stored_ordinary; [|lia].
      unfold count_if in E.
      destruct (filter (type_is t) issues) as [|i l] eqn:Hf; [easy|].
      assert (Hi : In i (filter (type_is t) issues)) by (rewrite Hf; now left).
      apply filter_In in Hi. destruct Hi as [Hi Ht].
      apply String.eqb_eq in Ht. rewrite <- Ht. now apply Hord.
  - rewrite issuesByType_scoreCounts, total_count_scoreCounts, length_map; auto.
    intros x Hx. apply in_map_iff in Hx. destruct Hx as (i & <- & Hi).
    now apply Hord.
Qed.

(** The theorem on the fixture: two problems, one question, one task. *)
Lemma issuesByType_counts_every_record_witness :
  let by_type :=
    issuesByType
      (additionalInsights
         (report (N := float) mock_now mockDataExtended mock_by_priority)) in
  (forall t,
     obj_get by_type t = stored t (count_if (type_is t) mockDataExtended)) /\
  (forallb ordinary_type mockDataExtended = true ->
   (forall t,
      obj_get by_type t =
      if count_if (type_is t) mockDataExtended =? 0 then None
      else Some (Count (count_if (type_is t) mockDataExtended))) /\
   total_count by_type = 4).
Proof.
  exact (@issuesByType_counts_every_record float _ mock_now mockDataExtended
           _ eq_refl eq_refl).
Defined.

(** ** The order of the records *)

Lemma Permutation_filter_list {A} (f : A -> bool) (l l' : list A) :
  Permutation l l' -> Permutation (filter f l) (filter f l').
Proof.
  induction 1 as [|x l l' _ IH|x y l|l l' l'' _ IH1 _ IH2]; simpl.
  - constructor.
  - destruct (f x); auto.
  - destruct (f x), (f y); auto. apply perm_swap.
  - eapply perm_trans; eauto.
Qed.

Lemma count_if_Permutation f issues issues' :
  Permutation issues issues' -> count_if f issues = count_if f issues'.
Proof.
  intros Hp. unfold count_if.
  apply Permutation_length. now apply Permutation_filter_list.
Qed.

Lemma sum_durations_Permutation l l' :
  Permutation l l' -> sum_durations l = sum_durations l'.
Proof.
  induction 1 as [|x l l' _ IH|x y l|l l' l'' _ IH1 _ IH2]; simpl.
  - reflexivity.
  - now rewrite IH.
  - destruct (analyze.timeDiffMs x), (analyze.timeDiffMs y),
      (sum_durations l); simpl; auto. f_equal. lia.
  - congruence.
Qed.

Lemma statusCounts_Permutation issues issues' :
  Permutation issues issues' ->
  analyze.statusCounts issues = analyze.statusCounts issues'.
Proof.
  intros Hp.
  destruct (statusCounts_each issues) as (A1 & A2 & A3 & A4 & A5 & A6).
  destruct (statusCounts_each issues') as (B1 & B2 & B3 & B4 & B5 & B6).
  cbv zeta in *.
  repeat match goal with
         | H : context [count_if ?f issues] |- _ =>
             rewrite (count_if_Permutation f Hp) in H
         end.
  destruct (analyze.statusCounts issues), (analyze.statusCounts issues').
  simpl in *. congruence.
Qed.

Lemma priorityCounts_Permutation issues issues' :
  Permutation issues issues' ->
  analyze.priorityCounts issues = analyze.priorityCounts issues'.
Proof.
  intros Hp.
  destruct (priorityCounts_each issues) as (A1 & A2 & A3).
  destruct (priorityCounts_each issues') as (B1 & B2 & B3).
  cbv zeta in *.
  repeat match goal with
         | H : context [count_if ?f issues] |- _ =>
             rewrite (count_if_Permutation f Hp) in H
         end.
  destruct (analyze.priorityCounts issues), (analyze.priorityCounts issues').
  simpl in *. congruence.
Qed.

Lemma timeliness_Permutation now issues issues' :
  Permutation issues issues' ->
  analyze.timeliness now issues = analyze.timeliness now issues'.
Proof.
  intros Hp.
  destruct (timeliness_from now issues (analyze.Build_Timeliness 0 0 0))
    as (A1 & A2 & A3).
  destruct (timeliness_from now issues' (analyze.Build_Timeliness 0 0 0))
    as (B1 & B2 & B3).
  simpl in A1, A2, A3, B1, B2, B3.
  fold (analyze.timeliness now issues) in A1, A2, A3.
  fold (analyze.timeliness now issues') in B1, B2, B3.
  unfold count_class in *.
  fold (count_if (fun i => class_eqb (classify now i) OnTime) issues) in A1.
  fold (count_if (fun i => class_eqb (classify now i) Overdue) issues) in A2.
  fold (count_if (fun i => class_eqb (classify now i) CurrentlyOverdue) issues)
    in A3.
  repeat match goal with
         | H : context [count_if ?f issues] |- _ =>
             rewrite (count_if_Permutation f Hp) in H
         end.
  unfold count_if in *.
  destruct (analyze.timeliness now issues), (analyze.timeliness now issues').
  simpl in *. congruence.
Qed.

(** X7.  The counters and the percentages do not depend on the order of the
    records: two arrays that are permutations of each other give the same
    [statusBreakdown], [priorityBreakdown] and [resolutionTimeliness], the
    same [totalClosedHighPriority], [totalIssues], [issuesClosedCount] and
    [issuesOpenCount], and the same count under every type; in exact
    arithmetic they give the same two averages as well. *)
Theorem counters_ignore_the_order {N} `{JsNumber N}
    (now : Z) (issues issues' : list Issue) (r r' : AnalysisResult N) :
  Permutation issues issues' ->
  analyze.GET now (Some issues) = Json r ->
  analyze.GET now (Some issues') = Json r' ->
  statusBreakdown r = statusBreakdown r' /\
  priorityBreakdown r = priorityBreakdown r' /\
  resolutionTimeliness r = resolutionTimeliness r' /\
  totalClosedHighPriority (highPriorityAnalysis r)
    = totalClosedHighPriority (highPriorityAnalysis r') /\
  analyze.highPriorityAnalysis (N := Exact.num) issues
    = analyze.highPriorityAnalysis issues' /\
  totalIssues (additionalInsights r) = totalIssues (additionalInsights r') /\
  issuesClosedCount (additionalInsights r)
    = issuesClosedCount (additionalInsights r') /\
  issuesOpenCount (additionalInsights r)
    = issuesOpenCount (additionalInsights r') /\
  (forall t, obj_get (issuesByType (additionalInsights r)) t
             = obj_get (issuesByType (additionalInsights r')) t).
Proof.
  intros Hp Hget Hget'.
  report_of Hget as bp Hne Hbp. report_of Hget' as bp' Hne' Hbp'.
  pose proof (Permutation_length Hp) as Hlen.
  pose proof (statusCounts_Permutation Hp) as Hs.
  pose proof (priorityCounts_Permutation Hp) as Hpr.
  pose proof (timeliness_Permutation now Hp) as Ht.
  assert (Hf : Permutation (analyze.highPriorityClosed issues)
                 (analyze.highPriorityClosed issues'))
    by (now apply Permutation_filter_list).
  unfold report. cbn [statusBreakdown priorityBreakdown resolutionTimeliness
    highPriorityAnalysis additionalInsights totalIssues issuesClosedCount
    issuesOpenCount issuesByType totalClosedHighPriority].
  unfold analyze.statusBreakdown, analyze.priorityBreakdown,
    analyze.resolutionTimeliness, analyze.highPriorityAnalysis,
    analyze.averageTimeToCloseDays, analyze.averageTimeToCloseHours,
    analyze.averageTimeToCloseMs.
  rewrite !totalTimeToClose_sum, (sum_durations_Permutation Hf),
    (Permutation_length Hf), Hs, Hpr, Ht, Hlen.
  repeat split.
  intros t. rewrite !issuesByType_scoreCounts, !scoreCounts_get, !frequency_map.
  now rewrite (Permutation_length (Permutation_filter_list _ Hp)).
Qed.

(** The theorem on the fixture and its reversal. *)
Lemma counters_ignore_the_order_witness :
  let r := report (N := float) mock_now mockDataExtended mock_by_priority in
  let r' := report (N := float) mock_now (rev mockDataExtended)
              [("low", "good"); ("high", "good"); ("normal", "excellent")] in
  statusBreakdown r = statusBreakdown r' /\
  priorityBreakdown r = priorityBreakdown r' /\
  resolutionTimeliness r = resolutionTimeliness r' /\
  totalClosedHighPriority (highPriorityAnalysis r)
    = totalClosedHighPriority (highPriorityAnalysis r') /\
  analyze.highPriorityAnalysis (N := Exact.num) mockDataExtended
    = analyze.highPriorityAnalysis (rev mockDataExtended) /\
  totalIssues (additionalInsights r) = totalIssues (additionalInsights r') /\
  issuesClosedCount (additionalInsights r)
    = issuesClosedCount (additionalInsights r') /\
  issuesOpenCount (additionalInsights r)
    = issuesOpenCount (additionalInsights r') /\
  (forall t, obj_get (issuesByType (additionalInsights r)) t
             = obj_get (issuesByType (additionalInsights r')) t).
Proof.
  exact (@counters_ignore_the_order float _ mock_now mockDataExtended
           (rev mockDataExtended) _ _ (Permutation_rev mockDataExtended)
           eq_refl eq_refl).
Defined.

(** ** The letter case of the categories *)

Lemma fold_left_Forall2 {A B} (R : B -> B -> Prop) (g : A -> B -> A)
    (l l' : list B) :
  (forall a x y, R x y -> g a x = g a y) ->
  Forall2 R l l' -> forall a, fold_left g l a = fold_left g l' a.
Proof.
  intros Hg. induction 1 as [|x y l l' Hxy _ IH]; intros a; simpl; auto.
  rewrite (Hg a x y Hxy). apply IH.
Qed.

Lemma filter_Forall2 {B} (R : B -> B -> Prop) (p : B -> bool) (l l' : list B) :
  (forall x y, R x y -> p x = p y) ->
  Forall2 R l l' -> Forall2 R (filter p l) (filter p l').
Proof.
  intros Hp. induction 1 as [|x y l l' Hxy _ IH]; simpl; auto.
  rewrite (Hp x y Hxy). destruct (p y); auto.
Qed.

Lemma same_case_timeDiffMs i j :
  same_up_to_case i j -> analyze.timeDiffMs i = analyze.timeDiffMs j.
Proof.
  intros (_ & Hc & Hu & _). unfold analyze.timeDiffMs. now rewrite Hc, Hu.
Qed.

Lemma same_case_rating_score i j :
  same_up_to_case i j -> rating_score i = rating_score j.
Proof.
  intros (_ & _ & _ & _ & Hs & _). unfold rating_score. now rewrite Hs.
Qed.

Lemma same_case_highPriorityClosed l l' :
  Forall2 same_up_to_case l l' ->
  Forall2 same_up_to_case (analyze.highPriorityClosed l)
    (analyze.highPriorityClosed l').
Proof.
  apply filter_Forall2. intros x y (_ & _ & _ & _ & _ & Hs & Hp & _).
  unfold analyze.is_highPriorityClosed. now rewrite Hs, Hp.
Qed.

Lemma same_case_sum_durations l l' :
  Forall2 same_up_to_case l l' -> sum_durations l = sum_durations l'.
Proof.
  induction 1 as [|x y l l' Hxy _ IH]; simpl; auto.
  now rewrite IH, (same_case_timeDiffMs Hxy).
Qed.

Lemma same_case_longer l l' :
  Forall2 same_up_to_case l l' ->
  forall e e', same_entry e e' ->
  same_entry (fold_left analyze.longer (map entry_of l) e)
    (fold_left analyze.longer (map entry_of l') e').
Proof.
  induction 1 as [|x y l l' Hxy _ IH]; intros e e' He; simpl; auto.
  apply IH.
  pose proof (same_case_timeDiffMs Hxy) as Hd.
  pose proof (same_case_rating_score Hxy) as Hr.
  destruct Hxy as (Hid & _).
  destruct e as [a|], e' as [b|]; simpl in He; try contradiction; simpl.
  - destruct He as (Ht & Hi & Hs). rewrite Hd, Ht.
    destruct (time_gt (analyze.timeDiffMs y) (analyze.timeMs b)); simpl; auto.
  - auto.
Qed.

Lemma same_case_longest {N} `{JsNumber N} l l' :
  Forall2 same_up_to_case l l' ->
  analyze.longestToSolveHighPriority (N := N) l =
  analyze.longestToSolveHighPriority l'.
Proof.
  intros Hl. unfold analyze.longestToSolveHighPriority, analyze.longestEntry.
  rewrite !timeToCloseArray_map.
  pose proof (@same_case_longer _ _ (same_case_highPriorityClosed Hl)
                None None I) as He.
  destruct (fold_left analyze.longer
              (map entry_of (analyze.highPriorityClosed l)) None) as [a|],
           (fold_left analyze.longer
              (map entry_of (analyze.highPriorityClosed l')) None) as [b|];
    simpl in He; try contradiction; auto.
  destruct He as (Ht & Hi & Hs). now rewrite Ht, Hi, Hs.
Qed.

(** X9.  The report is insensitive to the letter case of the categories: two
    arrays whose records differ at most in the case of [status], [priority]
    and [type] get the same response, report for report. *)
Theorem response_ignores_letter_case {N} `{JsNumber N}
    (now : Z) (issues issues' : list Issue) :
  Forall2 same_up_to_case issues issues' ->
  analyze.GET (N := N) now (Some issues) = analyze.GET now (Some issues').
Proof.
  intros Hl. unfold analyze.GET.
  rewrite (Forall2_length Hl).
  assert (Hs : analyze.statusCounts issues = analyze.statusCounts issues').
  { apply (fold_left_Forall2 (R := same_up_to_case)); auto.
    intros a x y (_ & _ & _ & _ & _ & E & _).
    unfold analyze.count_status. now rewrite E. }
  assert (Hp : analyze.priorityCounts issues = analyze.priorityCounts issues').
  { apply (fold_left_Forall2 (R := same_up_to_case)); auto.
    intros a x y (_ & _ & _ & _ & _ & _ & E & _).
    unfold analyze.count_priority. now rewrite E. }
  assert (Ht : analyze.timeliness now issues = analyze.timeliness now issues').
  { apply (fold_left_Forall2 (R := same_up_to_case)); auto.
    intros a x y (_ & _ & Eu & Ed & _ & E & _).
    unfold analyze.count_timeliness. now rewrite E, Eu, Ed. }
  assert (Hty : analyze.issuesByType issues = analyze.issuesByType issues').
  { apply (fold_left_Forall2 (R := same_up_to_case)); auto.
    intros a x y (_ & _ & _ & _ & _ & _ & _ & E).
    unfold analyze.count_type. now rewrite E. }
  assert (Hsat : analyze.satisfactionByPriority issues
                 = analyze.satisfactionByPriority issues').
  { apply (fold_left_Forall2 (R := same_up_to_case)); auto.
    intros a x y Hxy. pose proof (same_case_rating_score Hxy) as Er.
    destruct Hxy as (_ & _ & _ & _ & _ & _ & E & _).
    unfold analyze.collect_next, analyze.collect_score.
    destruct a as [o|]; auto. now rewrite E, Er. }
  pose proof (same_case_highPriorityClosed Hl) as Hf.
  unfold analyze.averageSatisfactionByPriority. rewrite Hsat.
  unfold analyze.statusBreakdown, analyze.priorityBreakdown,
    analyze.resolutionTimeliness, analyze.highPriorityAnalysis,
    analyze.averageTimeToCloseDays, analyze.averageTimeToCloseHours,
    analyze.averageTimeToCloseMs.
  rewrite !totalTimeToClose_sum, (same_case_sum_durations Hf),
    (Forall2_length Hf), (same_case_longest Hl), Hs, Hp, Ht, Hty,
    (Forall2_length Hl).
  reflexivity.
Qed.

(** The theorem on the fixture and its respelling. *)
Lemma response_ignores_letter_case_witness :
  analyze.GET (N := float) mock_now (Some mockDataExtended)
  = analyze.GET mock_now (Some mockDataShouted).
Proof.
  apply response_ignores_letter_case.
  repeat (constructor; [repeat split|]). constructor.
Defined.

(** * The list view *)

(** ** Sorting by priority *)

Lemma sort_insert_Permutation {A} (compare : A -> A -> Z) x l :
  Permutation (sort_insert compare x l) (x :: l).
Proof.
  induction l as [|y l IH]; simpl; auto.
  destruct (0 <? compare x y)%Z; auto.
  eapply perm_trans; [apply perm_skip, IH | apply perm_swap].
Qed.

Lemma Array_sort_Permutation {A} (compare : A -> A -> Z) l :
  Permutation (Array_sort compare l) l.
Proof.
  induction l as [|x l IH]; simpl; auto.
  eapply perm_trans; [apply sort_insert_Permutation | auto].
Qed.

(** For a priority that names no member of [Object.prototype] the number read
    in [priorityOrder] is the rank of the priority. *)
Lemma rank_ordinary t :
  ordinary_priority t = true ->
  ServiceDesk.rank t = Some (priority_rank t).
Proof.
  unfold ordinary_priority, ServiceDesk.rank, priority_rank, has_priority.
  intros Ho. rewrite js_get_ordinary by exact Ho. simpl.
  destruct (String.eqb _ "high"); auto.
  destruct (String.eqb _ "normal"); auto.
  destruct (String.eqb _ "low"); auto.
Qed.

Lemma by_priority_pos a b :
  ordinary_priority a = true -> ordinary_priority b = true ->
  (0 <? ServiceDesk.by_priority a b)%Z = (priority_rank b <? priority_rank a).
Proof.
  intros Ha Hb. unfold ServiceDesk.by_priority.
  rewrite (rank_ordinary _ Ha), (rank_ordinary _ Hb).
  destruct (priority_rank b <? priority_rank a) eqn:E.
  - apply Nat.ltb_lt in E. apply Z.ltb_lt. lia.
  - apply Nat.ltb_ge in E. apply Z.ltb_ge. lia.
Qed.

Lemma sort_insert_sorted x l :
  forallb ordinary_priority (x :: l) = true ->
  StronglySorted rank_le l ->
  StronglySorted rank_le (sort_insert ServiceDesk.by_priority x l).
Proof.
  unfold rank_le.
  induction l as [|y l IH]; simpl; intros Ho Hs.
  - constructor; constructor.
  - apply andb_true_iff in Ho. destruct Ho as [Hx Ho].
    apply andb_true_iff in Ho. destruct Ho as [Hy Ho].
    rewrite by_priority_pos by assumption.
    inversion Hs as [|? ? Hs' Hall]; subst.
    destruct (priority_rank y <? priority_rank x) eqn:E.
    + apply Nat.ltb_lt in E. constructor.
      * apply IH; auto. simpl. now rewrite Hx.
      * apply Forall_forall. intros z Hz.
        apply (Permutation_in _ (sort_insert_Permutation _ x l)) in Hz.
        destruct Hz as [<-|Hz]; [lia|].
        rewrite Forall_forall in Hall. auto.
    + apply Nat.ltb_ge in E. constructor; auto.
      constructor; auto.
      eapply Forall_impl; [|exact Hall]. intros z Hz. simpl in Hz. lia.
Qed.

Lemma forallb_sort_insert {A} (p : A -> bool) compare x l :
  forallb p (sort_insert compare x l) = forallb p (x :: l).
Proof.
  induction l as [|y l IH]; simpl; auto.
  destruct (0 <? compare x y)%Z; simpl; auto.
  rewrite IH. simpl. now rewrite !andb_assoc, (andb_comm (p y)).
Qed.

Lemma forallb_Array_sort {A} (p : A -> bool) compare l :
  forallb p (Array_sort compare l) = forallb p l.
Proof.
  induction l as [|x l IH]; simpl; auto.
  rewrite forallb_sort_insert. simpl. now rewrite IH.
Qed.

Lemma Array_sort_sorted l :
  forallb ordinary_priority l = true ->
  StronglySorted rank_le (Array_sort ServiceDesk.by_priority l).
Proof.
  induction l as [|x l IH]; simpl; intros Ho.
  - constructor.
  - apply andb_true_iff in Ho. destruct Ho as [Hx Ho].
    apply sort_insert_sorted; auto.
    simpl. now rewrite Hx, forallb_Array_sort.
Qed.

Lemma sort_insert_has_rank k x l :
  forallb ordinary_priority (x :: l) = true ->
  filter (has_rank k) (sort_insert ServiceDesk.by_priority x l) =
  filter (has_rank k) (x :: l).
Proof.
  unfold has_rank.
  induction l as [|y l IH]; simpl; auto. intros Ho.
  apply andb_true_iff in Ho. destruct Ho as [Hx Ho].
  apply andb_true_iff in Ho. destruct Ho as [Hy Ho].
  rewrite by_priority_pos by assumption.
  destruct (priority_rank y <? priority_rank x) eqn:E; simpl; auto.
  apply Nat.ltb_lt in E. simpl in IH. rewrite IH by (now rewrite Hx).
  destruct (priority_rank x =? k) eqn:Ex; auto.
  apply Nat.eqb_eq in Ex.
  replace (priority_rank y =? k) with false; auto.
  symmetry. apply Nat.eqb_neq. lia.
Qed.

Lemma Array_sort_has_rank k l :
  forallb ordinary_priority l = true ->
  filter (has_rank k) (Array_sort ServiceDesk.by_priority l) =
  filter (has_rank k) l.
Proof.
  induction l as [|x l IH]; simpl; auto. intros Ho.
  apply andb_true_iff in Ho. destruct Ho as [Hx Ho].
  rewrite sort_insert_has_rank by (simpl; now rewrite Hx, forallb_Array_sort).
  simpl. now rewrite IH.
Qed.

Lemma Array_sort_of_sorted l :
  forallb ordinary_priority l = true ->
  StronglySorted rank_le l -> Array_sort ServiceDesk.by_priority l = l.
Proof.
  unfold rank_le. intros Ho Hs.
  induction Hs as [|x l Hs IH Hall]; simpl; auto.
  simpl in Ho. apply andb_true_iff in Ho. destruct Ho as [Hx Ho].
  rewrite IH by exact Ho. destruct l as [|y l]; simpl; auto.
  simpl in Ho. apply andb_true_iff in Ho. destruct Ho as [Hy Ho].
  rewrite by_priority_pos by assumption.
  inversion Hall as [|? ? Hxy _]; subst.
  replace (priority_rank y <? priority_rank x) with false; auto.
  symmetry. apply Nat.ltb_ge. exact Hxy.
Qed.

Lemma filtered_is_shown results flag term :
  ServiceDesk.filteredAndSortedIssues (Some results) flag term =
  Array_sort ServiceDesk.by_priority (filter (shown flag term) results).
Proof.
  unfold ServiceDesk.filteredAndSortedIssues, shown. f_equal.
  destruct (blank term), flag; simpl.
  - reflexivity.
  - induction results as [|t l IH]; simpl; congruence.
  - induction results as [|t l IH]; simpl; auto.
    unfold ServiceDesk.matches_search at 1.
    destruct (includes _ _); simpl; auto.
    unfold ServiceDesk.is_open_high at 1, status_is, has_priority.
    destruct (_ && _); simpl; now rewrite IH.
  - apply filter_ext. intros t. unfold ServiceDesk.matches_search.
    now rewrite andb_true_r.
Qed.

Lemma forallb_filter {A} (p f : A -> bool) l :
  forallb p l = true -> forallb p (filter f l) = true.
Proof.
  rewrite !forallb_forall. intros Hall x Hx.
  apply filter_In in Hx. apply Hall. tauto.
Qed.

(** X11.  For a search term and tickets that are ASCII text, no priority
    naming a member of [Object.prototype]: the list shows exactly the tickets
    that pass the filters switched on, each one once (it is a permutation of
    them, so never longer than the data), ordered by priority rank ([high],
    [normal], [low], then any other priority); tickets of the same rank keep
    the order of the data. *)
Theorem list_is_a_stable_sort_of_the_shown_tickets
    (results : list ServiceDesk.Ticket) (flag : bool) (term : string) :
  ascii_only term = true ->
  forallb ascii_ticket results = true ->
  forallb ordinary_priority results = true ->
  let out := ServiceDesk.filteredAndSortedIssues (Some results) flag term in
  Permutation out (filter (shown flag term) results) /\
  List.length out <= List.length results /\
  StronglySorted rank_le out /\
  (forall k, filter (has_rank k) out
             = filter (has_rank k) (filter (shown flag term) results)).
Proof.
  intros _ _ Ho. cbv zeta. rewrite filtered_is_shown.
  pose proof (forallb_filter _ (shown flag term) _ Ho) as Hf.
  split; [apply Array_sort_Permutation|].
  split.
  - rewrite (Permutation_length (Array_sort_Permutation _ _)).
    apply filter_length_le.
  - split; [now apply Array_sort_sorted|].
    intros k. now apply Array_sort_has_rank.
Qed.

(** The theorem on the tickets of the fixture, searched for ["s"]: three
    tickets, the one of priority [high] first. *)
Lemma list_is_a_stable_sort_of_the_shown_tickets_witness :
  let out := ServiceDesk.filteredAndSortedIssues (Some mock_tickets) false "s" in
  Permutation out (filter (shown false "s") mock_tickets) /\
  List.length out <= List.length mock_tickets /\
  StronglySorted rank_le out /\
  (forall k, filter (has_rank k) out
             = filter (has_rank k) (filter (shown false "s") mock_tickets)).
Proof.
  exact (@list_is_a_stable_sort_of_the_shown_tickets mock_tickets false "s"
           eq_refl eq_refl eq_refl).
Defined.

(** ** The filters *)

Lemma same_rank_sorted l :
  (forall t, In t l -> priority_rank t = 1) -> StronglySorted rank_le l.
Proof.
  intros Hall. induction l as [|x l IH]; constructor.
  - apply IH. intros t Ht. apply Hall. now right.
  - apply Forall_forall. intros t Ht. unfold rank_le.
    rewrite (Hall x), (Hall t); simpl; auto.
Qed.

Lemma high_rank t :
  has_priority "high" (ServiceDesk.issue t) = true ->
  priority_rank t = 1 /\ ordinary_priority t = true.
Proof.
  unfold priority_rank, ordinary_priority. intros E. rewrite E.
  unfold has_priority in E. apply String.eqb_eq in E. now rewrite E.
Qed.

(** X12.  For a search term and tickets that are ASCII text: with the filter
    "open + high priority" switched on, every ticket of the list is open and
    of priority [high], and the list shows these tickets in the order of the
    data: the sort moves nothing. *)
Theorem open_high_filter_keeps_the_data_order
    (results : list ServiceDesk.Ticket) (term : string) :
  ascii_only term = true ->
  forallb ascii_ticket results = true ->
  let out := ServiceDesk.filteredAndSortedIssues (Some results) true term in
  out = filter (shown true term) results /\
  (forall t, In t out ->
     In t results /\
     status_is "open" (ServiceDesk.issue t) = true /\
     has_priority "high" (ServiceDesk.issue t) = true).
Proof.
  intros _ _. cbv zeta. rewrite filtered_is_shown.
  assert (Hall : forall t, In t (filter (shown true term) results) ->
            In t results /\
            status_is "open" (ServiceDesk.issue t) = true /\
            has_priority "high" (ServiceDesk.issue t) = true).
  { intros t Ht. apply filter_In in Ht. destruct Ht as [Hin Hs].
    unfold shown in Hs. simpl in Hs.
    apply andb_true_iff in Hs. destruct Hs as [_ Hs].
    apply andb_true_iff in Hs. tauto. }
  rewrite Array_sort_of_sorted.
  - split; auto.
  - apply forallb_forall. intros t Ht. apply high_rank. now apply Hall.
  - apply same_rank_sorted. intros t Ht. apply high_rank. now apply Hall.
Qed.

(** The theorem on the tickets of the fixture: one open ticket of priority
    [high]. *)
Lemma open_high_filter_keeps_the_data_order_witness :
  let out := ServiceDesk.filteredAndSortedIssues (Some mock_tickets) true "" in
  out = filter (shown true "") mock_tickets /\
  (forall t, In t out ->
     In t mock_tickets /\
     status_is "open" (ServiceDesk.issue t) = true /\
     has_priority "high" (ServiceDesk.issue t) = true).
Proof.
  exact (@open_high_filter_keeps_the_data_order mock_tickets ""
           eq_refl eq_refl).
Defined.

Lemma is_white_space_lower c :
  is_white_space (lower_ascii c) = is_white_space c.
Proof.
  destruct c as [[] [] [] [] [] [] [] []]; reflexivity.
Qed.

Lemma blank_toLowerCase s : blank (toLowerCase s) = blank s.
Proof.
  induction s as [|c s IH]; simpl; auto.
  now rewrite is_white_space_lower, IH.
Qed.

(** X13.  The search box, for a term and tickets that are ASCII text: a term
    of white space only switches the search off; otherwise a ticket is listed
    only if its lowercased [organization_id] contains the whole lowercased
    term, surrounding white space included (the term is tested trimmed but
    matched untrimmed); and an ASCII term that differs in letter case only
    gives the same list. *)
Theorem search_is_case_insensitive_and_untrimmed
    (results : list ServiceDesk.Ticket) (flag : bool) (term : string) :
  ascii_only term = true ->
  forallb ascii_ticket results = true ->
  let data := Some results in
  (blank term = true ->
   ServiceDesk.filteredAndSortedIssues data flag term
   = ServiceDesk.filteredAndSortedIssues data flag "") /\
  (blank term = false ->
   forall t, In t (ServiceDesk.filteredAndSortedIssues data flag term) ->
     includes (toLowerCase (ServiceDesk.organization_id t))
       (toLowerCase term) = true) /\
  (forall term', ascii_only term' = true ->
     toLowerCase term' = toLowerCase term ->
     ServiceDesk.filteredAndSortedIssues data flag term'
     = ServiceDesk.filteredAndSortedIssues data flag term).
Proof.
  intros _ _. cbv zeta. split; [|split].
  - intros Hb. unfold ServiceDesk.filteredAndSortedIssues. now rewrite Hb.
  - intros Hb t Ht. rewrite filtered_is_shown in Ht.
    apply (Permutation_in _ (Array_sort_Permutation _ _)) in Ht.
    apply filter_In in Ht. destruct Ht as [_ Hs].
    unfold shown in Hs. rewrite Hb in Hs. simpl in Hs.
    apply andb_true_iff in Hs. tauto.
  - intros term' _ E. unfold ServiceDesk.filteredAndSortedIssues.
    rewrite <- (blank_toLowerCase term'), E, blank_toLowerCase. reflexivity.
Qed.

(** The theorem on the tickets of the fixture, searched for ["Corp "]: no
    ticket, the blank after the word being part of the search. *)
Lemma search_is_case_insensitive_and_untrimmed_witness :
  let data := Some mock_tickets in
  (blank "Corp " = true ->
   ServiceDesk.filteredAndSortedIssues data false "Corp "
   = ServiceDesk.filteredAndSortedIssues data false "") /\
  (blank "Corp " = false ->
   forall t, In t (ServiceDesk.filteredAndSortedIssues data false "Corp ") ->
     includes (toLowerCase (ServiceDesk.organization_id t))
       (toLowerCase "Corp ") = true) /\
  (forall term', ascii_only term' = true ->
     toLowerCase term' = toLowerCase "Corp " ->
     ServiceDesk.filteredAndSortedIssues data false term'
     = ServiceDesk.filteredAndSortedIssues data false "Corp ").
Proof.
  exact (@search_is_case_insensitive_and_untrimmed mock_tickets false "Corp "
           eq_refl eq_refl).
Defined.

(** * The dashboard *)

Lemma dashboardStats_fields l : forall st,
  fold_left ServiceDesk.count_ticket l st =
  ServiceDesk.Build_DashboardStats
    (fold_left increment
       (map (fun t => toLowerCase (priority (ServiceDesk.issue t))) l)
       (ServiceDesk.byPriority st))
    (fold_left increment
       (map (fun t => toLowerCase (type (ServiceDesk.issue t))) l)
       (ServiceDesk.byType st))
    (fold_left increment
       (map (fun t => toLowerCase (status (ServiceDesk.issue t))) l)
       (ServiceDesk.byStatus st))
    (fold_left increment
       (map (fun t => or_else (rating_score (ServiceDesk.issue t)) "N/A") l)
       (ServiceDesk.bySatisfaction st)).
Proof.
  induction l as [|t l IH]; intros st; simpl.
  - now destruct st.
  - rewrite IH. reflexivity.
Qed.

Lemma count_if_map (f : Issue -> bool) (l : list ServiceDesk.Ticket) :
  count_if f (map ServiceDesk.issue l) =
  List.length (filter (fun t => f (ServiceDesk.issue t)) l).
Proof.
  unfold count_if. induction l as [|t l IH]; simpl; auto.
  destruct (f (ServiceDesk.issue t)); simpl; now rewrite IH.
Qed.

(** What a counting loop over the tickets leaves under a key. *)
Lemma counted_tickets (key : Issue -> string) results k :
  obj_get
    (fold_left increment (map (fun t => key (ServiceDesk.issue t)) results) [])
    k
  = stored k (count_if (fun i => String.eqb (key i) k)
                (map ServiceDesk.issue results)).
Proof.
  rewrite counted, frequency_map, count_if_map. reflexivity.
Qed.

Lemma total_counted_tickets (key : ServiceDesk.Ticket -> string) results :
  (forall t, In t results -> ordinary (key t) = true) ->
  total_count (fold_left increment (map key results) []) = List.length results.
Proof.
  intros Hord.
  change (fold_left increment (map key results) [])
    with (analyze.scoreCounts (map key results)).
  rewrite total_count_scoreCounts, length_map; auto.
  intros x Hx. apply in_map_iff in Hx. destruct Hx as (t & <- & Ht). auto.
Qed.

Lemma or_zero_stored o k n :
  ordinary k = true -> obj_get o k = stored k n ->
  ServiceDesk.or_zero o k = Count n.
Proof.
  intros Hk Ho. unfold ServiceDesk.or_zero. rewrite Ho.
  destruct n as [|n]; [reflexivity|].
  now rewrite stored_ordinary by (auto; lia).
Qed.

(** X14.  For tickets whose status, priority and type are ASCII text, each
    object of the dashboard holds under every key what the additions of the
    tickets of that lowercased priority, type or status, or of that score (a
    ticket without a score counting under ["N/A"]) leave there; and the
    numbers of the summary card are the counters [open], [closed] and [high]
    that the handler of [/api/analyze] computes on the same records.  When no
    such key names a member of [Object.prototype], the values of each object
    are numbers that add up to the number of tickets. *)
Theorem dashboard_counts_every_ticket (results : list ServiceDesk.Ticket) :
  forallb ascii_ticket results = true ->
  let st := ServiceDesk.dashboardStats (Some results) in
  let issues := map ServiceDesk.issue results in
  (forall k,
     obj_get (ServiceDesk.byPriority st) k
       = stored k (count_if (has_priority k) issues) /\
     obj_get (ServiceDesk.byType st) k
       = stored k (count_if (type_is k) issues) /\
     obj_get (ServiceDesk.byStatus st) k
       = stored k (count_if (status_is k) issues) /\
     obj_get (ServiceDesk.bySatisfaction st) k
       = stored k (count_if (satisfaction_is k) issues)) /\
  ServiceDesk.openIssues st = Count (analyze.open (analyze.statusCounts issues)) /\
  ServiceDesk.closedIssues st
    = Count (analyze.closed (analyze.statusCounts issues)) /\
  ServiceDesk.highPriority st
    = Count (analyze.high (analyze.priorityCounts issues)) /\
  (forallb ordinary_ticket results = true ->
   total_count (ServiceDesk.byPriority st) = List.length results /\
   total_count (ServiceDesk.byType st) = List.length results /\
   total_count (ServiceDesk.byStatus st) = List.length results /\
   total_count (ServiceDesk.bySatisfaction st) = List.length results).
Proof.
  intros _. cbv zeta. unfold ServiceDesk.dashboardStats.
  rewrite dashboardStats_fields.
  unfold ServiceDesk.openIssues, ServiceDesk.closedIssues,
    ServiceDesk.highPriority.
  cbn [ServiceDesk.byPriority ServiceDesk.byType
    ServiceDesk.byStatus ServiceDesk.bySatisfaction].
  destruct (statusCounts_each (map ServiceDesk.issue results))
    as (S1 & S2 & _).
  destruct (priorityCounts_each (map ServiceDesk.issue results)) as (P1 & _).
  cbv zeta in *. rewrite S1, S2, P1.
  split; [|split; [|split; [|split]]].
  - intros k. repeat split.
    + apply (counted_tickets (fun i => toLowerCase (priority i))).
    + apply (counted_tickets (fun i => toLowerCase (type i))).
    + apply (counted_tickets (fun i => toLowerCase (status i))).
    + apply (counted_tickets (fun i => or_else (rating_score i) "N/A")).
  - apply or_zero_stored; [reflexivity|].
    apply (counted_tickets (fun i => toLowerCase (status i))).
  - apply or_zero_stored; [reflexivity|].
    apply (counted_tickets (fun i => toLowerCase (status i))).
  - apply or_zero_stored; [reflexivity|].
    apply (counted_tickets (fun i => toLowerCase (priority i))).
  - intros Hord. rewrite forallb_forall in Hord.
    repeat split; apply total_counted_tickets; intros t Ht;
      specialize (Hord t Ht); unfold ordinary_ticket in Hord;
      do 3 (apply andb_true_iff in Hord; destruct Hord as [Hord ?]);
      cbv beta; assumption.
Qed.

(** The theorem on the tickets of the fixture. *)
Lemma dashboard_counts_every_ticket_witness :
  let st := ServiceDesk.dashboardStats (Some mock_tickets) in
  let issues := map ServiceDesk.issue mock_tickets in
  (forall k,
     obj_get (ServiceDesk.byPriority st) k
       = stored k (count_if (has_priority k) issues) /\
     obj_get (ServiceDesk.byType st) k
       = stored k (count_if (type_is k) issues) /\
     obj_get (ServiceDesk.byStatus st) k
       = stored k (count_if (status_is k) issues) /\
     obj_get (ServiceDesk.bySatisfaction st) k
       = stored k (count_if (satisfaction_is k) issues)) /\
  ServiceDesk.openIssues st = Count (analyze.open (analyze.statusCounts issues)) /\
  ServiceDesk.closedIssues st
    = Count (analyze.closed (analyze.statusCounts issues)) /\
  ServiceDesk.highPriority st
    = Count (analyze.high (analyze.priorityCounts issues)) /\
  (forallb ordinary_ticket mock_tickets = true ->
   total_count (ServiceDesk.byPriority st) = 4 /\
   total_count (ServiceDesk.byType st) = 4 /\
   total_count (ServiceDesk.byStatus st) = 4 /\
   total_count (ServiceDesk.bySatisfaction st) = 4).
Proof.
  exact (@dashboard_counts_every_ticket mock_tickets eq_refl).
Defined.

(** * The defaults of the high-priority sections *)

Lemma no_high_resolved issues :
  count_if (fun i => has_priority "high" i && resolved i) issues = 0 ->
  analyze.highPriorityClosed issues = [].
Proof.
  unfold count_if, analyze.highPriorityClosed. intros H.
  apply length_zero_iff_nil in H. exact H.
Qed.

(** X8.  When no record is of priority [high] and resolved, nothing is
    divided by the empty count: in exact arithmetic and in doubles alike both
    averages are the number 0 (not NaN), [totalClosedHighPriority] is 0 and
    the longest-to-solve section holds its defaults. *)
Theorem no_resolved_high_priority_gives_zeros (issues : list Issue) :
  count_if (fun i => has_priority "high" i && resolved i) issues = 0 ->
  (analyze.highPriorityAnalysis (N := Exact.num) issues
     = Build_HighPriorityAnalysis (of_int 0) (of_int 0) 0 /\
   analyze.longestToSolveHighPriority (N := Exact.num) issues = no_longest) /\
  (analyze.highPriorityAnalysis (N := float) issues
     = Build_HighPriorityAnalysis (of_int 0) (of_int 0) 0 /\
   analyze.longestToSolveHighPriority (N := float) issues = no_longest).
Proof.
  intros H. apply no_high_resolved in H.
  assert (Hl : analyze.longestEntry issues = None).
  { unfold analyze.longestEntry. now rewrite timeToCloseArray_map, H. }
  unfold analyze.highPriorityAnalysis, analyze.longestToSolveHighPriority,
    analyze.averageTimeToCloseDays, analyze.averageTimeToCloseHours,
    analyze.averageTimeToCloseMs, no_longest.
  rewrite H, Hl. cbn [List.length Nat.ltb Nat.leb].
  split; split; try reflexivity; f_equal; vm_compute; reflexivity.
Qed.

Lemma no_resolved_high_priority_gives_zeros_witness :
  (analyze.highPriorityAnalysis (N := Exact.num) open_high_and_closed_low
     = Build_HighPriorityAnalysis (of_int 0) (of_int 0) 0 /\
   analyze.longestToSolveHighPriority (N := Exact.num)
     open_high_and_closed_low = no_longest) /\
  (analyze.highPriorityAnalysis (N := float) open_high_and_closed_low
     = Build_HighPriorityAnalysis (of_int 0) (of_int 0) 0 /\
   analyze.longestToSolveHighPriority (N := float)
     open_high_and_closed_low = no_longest).
Proof.
  apply no_resolved_high_priority_gives_zeros. reflexivity.
Defined.
